(** * The Hereya Claude-agent stack: embedding and specification

    This development embeds [lib/hereya-claude-agent-stack.ts] and checks the
    statements of the specification against it.

    The stack definition is one TypeScript constructor.  It reads
    [process.env], validates the image reference, takes the reference apart,
    and then declares constructs in its own scope: two buckets, two queues,
    an imported image repository, one container function, three grants, one
    event source and seven outputs.

    Modelling decisions.

    - [process.env] is a finite map from variable names to strings; an unset
      variable is an absent key (JavaScript [undefined]).
    - A string is the sequence of the bytes of its UTF-8 encoding.  [split],
      [slice], [join], [||] and [===] are written out in full.  [parseInt]
      skips every ECMAScript white-space character, multi-byte ones
      included.  [toLowerCase] is written out for strings of ASCII
      characters; on any other string it is the case mapping of the
      JavaScript runtime, which is a parameter of the development.
    - A JavaScript number is a double.  [JS.Num z] is the double equal to the
      integer [z], which exists when [z] lies between [-2^53] and [2^53];
      an integer outside that range gives [JS.Beyond], a double of larger
      magnitude whose value is left open; [-0] is identified with [0].
    - [new C(this, id, props)] appends a child to the scope, so the
      constructor is a computation in a state-and-exception monad over the
      stack under construction.
    - The constructs of the CDK library are records of the properties the
      source passes to them.  The library validates what it is given and
      may throw at any of its calls: whether it does is a parameter of the
      development, an oracle that sees the stack and the call and about
      which nothing is assumed.  An error carries its origin, the stack
      definition or the library.
    - [children] lists the constructs the constructor declares with its own
      [new]; what the library creates on their behalf (roles, policies, the
      provider that empties a bucket before it is deleted) is not listed.
      [grants] lists the grants made to the function on buckets and queues:
      the three calls of the source and the one an SQS event source makes.
    - An attribute of a construct that is only known at deployment
      ([bucket.bucketName], [queue.queueUrl], ...) is a symbolic reference to
      the construct; a template literal around it is a list of fragments. *)

From Stdlib Require Import ZArith Ascii.
From stdpp Require Import gmap strings list fin_maps.

Local Open Scope Z_scope.

(** ** JavaScript primitives used by the source *)

Module JS.

(** Numbers: not-a-number, the double of an integer it represents exactly,
    or a double beyond the range in which every integer is a double. *)
Inductive number : Type :=
| NaN : number
| Num : Z → number
| Beyond : number.

(** The integers every one of which is a double: [-2^53 .. 2^53]. *)
Definition exact (z : Z) : bool :=
  (-9007199254740992 <=? z) && (z <=? 9007199254740992).

(** The double nearest to an integer. *)
Definition ofInteger (z : Z) : number := if exact z then Num z else Beyond.

(** [a * k] for a positive integer literal [k]. *)
Definition mul (a : number) (k : positive) : number :=
  match a with
  | Num x => ofInteger (x * Z.pos k)
  | NaN => NaN
  | Beyond => Beyond
  end.

(** [v || d] for [v : string | undefined]: [undefined] and the empty
    string are the falsy values. *)
Definition or (v : option string) (d : string) : string :=
  match v with
  | None => d
  | Some EmptyString => d
  | Some (String c r) => String c r
  end.

(** [v === s] for [v : string | undefined] and a string [s]. *)
Definition strict_eq (v : option string) (s : string) : bool :=
  match v with
  | None => false
  | Some x => bool_decide (x = s)
  end.

Definition code (c : ascii) : Z := Z.of_N (N_of_ascii c).

(** Strings of ASCII characters: every byte is below 128. *)
Fixpoint isAscii (s : string) : bool :=
  match s with
  | EmptyString => true
  | String c r => (code c <? 128) && isAscii r
  end.

(** [String.prototype.toLowerCase] on a string of ASCII characters maps
    [A-Z] to [a-z] and leaves the rest; on other strings it is the case
    mapping [unicode] of the runtime. *)
Definition lower_char (c : ascii) : ascii :=
  if (65 <=? code c) && (code c <=? 90)
  then ascii_of_N (N_of_ascii c + 32)
  else c.

Fixpoint lowerAscii (s : string) : string :=
  match s with
  | EmptyString => EmptyString
  | String c r => String (lower_char c) (lowerAscii r)
  end.

Definition toLowerCase (unicode : string → string) (s : string) : string :=
  if isAscii s then lowerAscii s else unicode s.

(** [s.split(sep)] for a one-character separator: one more piece than
    there are separators, never the empty array. *)
Fixpoint split (sep : ascii) (s : string) : list string :=
  match s with
  | EmptyString => [EmptyString]
  | String c r =>
      if bool_decide (c = sep) then EmptyString :: split sep r
      else match split sep r with
           | piece :: pieces => String c piece :: pieces
           | [] => [String c EmptyString]
           end
  end.

(** [a.slice(1)]. *)
Definition slice1 {A : Type} (a : list A) : list A := drop 1 a.

(** [a.join(sep)]. *)
Fixpoint join (sep : string) (a : list string) : string :=
  match a with
  | [] => EmptyString
  | [x] => x
  | x :: rest => x +:+ sep +:+ join sep rest
  end.

(** White space as [parseInt] skips it.  One byte: TAB, LF, VT, FF, CR and
    SP.  Two bytes: U+00A0.  Three bytes: U+1680, U+2000 to U+200A, U+2028,
    U+2029, U+202F, U+205F, U+3000 and U+FEFF. *)
Definition is_white_space (c : ascii) : bool :=
  ((9 <=? code c) && (code c <=? 13)) || (code c =? 32).

Definition is_white_space2 (a b : ascii) : bool :=
  (code a =? 194) && (code b =? 160).

Definition is_white_space3 (a b c : ascii) : bool :=
  ((code a =? 225) && (code b =? 154) && (code c =? 128))
  || ((code a =? 226) && (code b =? 128)
      && (((128 <=? code c) && (code c <=? 138))
          || (code c =? 168) || (code c =? 169) || (code c =? 175)))
  || ((code a =? 226) && (code b =? 129) && (code c =? 159))
  || ((code a =? 227) && (code b =? 128) && (code c =? 128))
  || ((code a =? 239) && (code b =? 187) && (code c =? 191)).

Fixpoint trimStart (s : string) : string :=
  match s with
  | EmptyString => EmptyString
  | String a r1 =>
      if is_white_space a then trimStart r1
      else match r1 with
           | EmptyString => s
           | String b r2 =>
               if is_white_space2 a b then trimStart r2
               else match r2 with
                    | EmptyString => s
                    | String c r3 => if is_white_space3 a b c then trimStart r3 else s
                    end
           end
  end.

Definition digit (c : ascii) : option Z :=
  if (48 <=? code c) && (code c <=? 57) then Some (code c - 48) else None.

Fixpoint digits (acc : option Z) (s : string) : option Z :=
  match s with
  | EmptyString => acc
  | String c r =>
      match digit c with
      | Some d => digits (Some (10 * default 0 acc + d)) r
      | None => acc
      end
  end.

(** [parseInt(s, 10)]: leading white space is skipped, one sign is
    accepted, then the longest run of decimal digits is read; without a
    digit the result is [NaN]. *)
Definition parseInt (s : string) : number :=
  let s1 := trimStart s in
  let '(sign, s2) :=
    match s1 with
    | String "-" r => (-1, r)
    | String "+" r => (1, r)
    | _ => (1, s1)
    end in
  match digits None s2 with
  | None => NaN
  | Some m => ofInteger (sign * m)
  end.

(** [const [a, b = d] = parts]: the first element, and the second one
    unless it is [undefined]. *)
Definition destructure2 (parts : list string) (d : string)
  : option string * string :=
  (parts !! 0%nat, default d (parts !! 1%nat)).

End JS.

(** ** The constructs of the CDK library, as records of their properties *)

(** Attributes of a construct that are resolved at deployment. *)
Inductive Attribute : Type :=
| BucketName | BucketArn | QueueUrl | QueueArn | FunctionName.

(** A piece of a string that may mention such attributes: literal text, or
    the attribute of the construct declared under an identifier. *)
Inductive Fragment : Type :=
| Lit : string → Fragment
| Ref : string → Attribute → Fragment.

Global Instance Attribute_eq_dec : EqDecision Attribute.
Proof. solve_decision. Defined.

Global Instance Fragment_eq_dec : EqDecision Fragment.
Proof. solve_decision. Defined.

Module Duration.
Inductive TimeUnit : Type := Seconds | Days.

Record t : Type := mk { amount : JS.number; unit : TimeUnit }.

Definition seconds (n : JS.number) : t := mk n Seconds.
Definition days (n : JS.number) : t := mk n Days.
End Duration.

Module RemovalPolicy.
Inductive t : Type := DESTROY | RETAIN.
End RemovalPolicy.

Module s3.
Inductive BlockPublicAccess : Type := BLOCK_ALL.
Inductive BucketEncryption : Type := S3_MANAGED.

Record BucketProps : Type := {
  bucketName : string;
  versioned : bool;
  removalPolicy : RemovalPolicy.t;
  autoDeleteObjects : bool;
  blockPublicAccess : BlockPublicAccess;
  encryption : BucketEncryption
}.
End s3.

Module sqs.
Record QueueProps : Type := {
  queueName : string;
  visibilityTimeout : Duration.t;
  retentionPeriod : Duration.t
}.
End sqs.

Module lambda.
(** [DockerImageCode.fromEcr(repository, { tagOrDigest })]; the repository
    is the construct declared under [repository]. *)
Record DockerImageCode : Type := fromEcr {
  repository : string;
  tagOrDigest : string
}.

Record DockerImageFunctionProps : Type := {
  functionName : string;
  code : DockerImageCode;
  memorySize : JS.number;
  timeout : Duration.t;
  environment : gmap string (list Fragment)
}.
End lambda.

Module iam.
Inductive Effect : Type := ALLOW | DENY.

Record PolicyStatement : Type := {
  effect : Effect;
  actions : list string;
  resources : list (list Fragment)
}.

Record PolicyDocument : Type := { statements : list PolicyStatement }.

Global Instance Effect_eq_dec : EqDecision Effect.
Proof. solve_decision. Defined.
End iam.

(** What a [CfnOutput] carries: a string with references, or the JSON
    rendering of a policy document. *)
Inductive OutputValue : Type :=
| Text : list Fragment → OutputValue
| PolicyJson : iam.PolicyDocument → OutputValue.

(** The children a scope can hold. *)
Inductive Construct : Type :=
| Bucket : s3.BucketProps → Construct
| Queue : sqs.QueueProps → Construct
| Repository : option string → Construct
| DockerImageFunction : lambda.DockerImageFunctionProps → Construct
| CfnOutput : OutputValue → string → Construct.

(** [bucket.grantRead(fn)], [bucket.grantWrite(fn)],
    [queue.grantSendMessages(fn)], and [queue.grantConsumeMessages(fn)],
    which an SQS event source makes when it is added to a function:
    resource first, grantee second. *)
Inductive Grant : Type :=
| grantRead : string → string → Grant
| grantWrite : string → string → Grant
| grantSendMessages : string → string → Grant
| grantConsumeMessages : string → string → Grant.

(** [fn.addEventSource(new SqsEventSource(queue, { batchSize }))]. *)
Record SqsEventSource : Type := {
  target : string;
  queue : string;
  batchSize : Z
}.

(** The stack under construction.  [stackName] and [region] are set by the
    base class; children, grants and event sources are added by the
    constructor, in the order of the source. *)
Record Stack : Type := {
  stackName : string;
  region : string;
  children : list (string * Construct);
  grants : list Grant;
  eventSources : list SqsEventSource
}.

(** [super(scope, id, props)]: a stack with nothing declared in it. *)
Definition super (name rg : string) : Stack :=
  {| stackName := name; region := rg; children := []; grants := []; eventSources := [] |}.

(** ** Construction as a computation *)

(** An error and where it was raised: [mkError] is [new Error(message)] in
    the stack definition, [LibraryError] an error thrown inside a call of
    the library. *)
Inductive Error : Type :=
| mkError (message : string)
| LibraryError (message : string).

(** A computation either returns a value or throws; either way there is a
    stack: the one built so far, or the one the throw left behind. *)
Inductive Outcome (A : Type) : Type :=
| Returned : A → Stack → Outcome A
| Thrown : Error → Stack → Outcome A.
Arguments Returned {A} _ _.
Arguments Thrown {A} _ _.

(** The calls the constructor makes into the library.  A construct comes
    with its properties already built: [Duration.seconds], [Duration.days]
    and [DockerImageCode.fromEcr] are evaluated as part of the call that
    uses their results, so an error thrown while building them, for a
    negative duration say, is an error of that call. *)
Inductive LibraryCall : Type :=
| NewConstruct : string → Construct → LibraryCall
| MakeGrant : Grant → LibraryCall
| AddEventSource : SqsEventSource → LibraryCall
| BuildPolicy : iam.PolicyDocument → LibraryCall.

(** What the constructor runs on and does not contain: the library, which
    may refuse a call, given the stack as it is at that point, with an
    error message and leaving the stack in some state of its choice; and
    the runtime's case mapping for strings that are not ASCII. *)
Record Platform : Type := {
  rejects : Stack → LibraryCall → option (string * Stack);
  lowerUnicode : string → string
}.

Definition M (A : Type) : Type := Stack → Outcome A.

Global Instance M_ret : MRet M := λ A a s, Returned a s.

Global Instance M_bind : MBind M := λ A B f c s,
  match c s with
  | Returned a s' => f a s'
  | Thrown e s' => Thrown e s'
  end.

Definition throw {A : Type} (e : Error) : M A := λ s, Thrown e s.

Definition this_stackName : M string := λ s, Returned (stackName s) s.
Definition this_region : M string := λ s, Returned (region s) s.

Definition addChild (U : Platform) (id : string) (c : Construct) : M string := λ s,
  match rejects U s (NewConstruct id c) with
  | Some (message, s') => Thrown (LibraryError message) s'
  | None =>
      Returned id
        {| stackName := stackName s; region := region s;
           children := children s ++ [(id, c)];
           grants := grants s; eventSources := eventSources s |}
  end.

Definition addGrant (U : Platform) (g : Grant) : M unit := λ s,
  match rejects U s (MakeGrant g) with
  | Some (message, s') => Thrown (LibraryError message) s'
  | None =>
      Returned tt
        {| stackName := stackName s; region := region s;
           children := children s;
           grants := grants s ++ [g]; eventSources := eventSources s |}
  end.

(** Adding an SQS event source to a function registers the source and
    grants the function the right to consume from the queue. *)
Definition addEventSource (U : Platform) (fn q : string) (size : Z) : M unit := λ s,
  let e := {| target := fn; queue := q; batchSize := size |} in
  match rejects U s (AddEventSource e) with
  | Some (message, s') => Thrown (LibraryError message) s'
  | None =>
      Returned tt
        {| stackName := stackName s; region := region s;
           children := children s;
           grants := grants s ++ [grantConsumeMessages q fn];
           eventSources := eventSources s ++ [e] |}
  end.

(** [new iam.PolicyDocument({ statements })]: nothing is added to the
    stack. *)
Definition newPolicyDocument (U : Platform) (d : iam.PolicyDocument)
  : M iam.PolicyDocument := λ s,
  match rejects U s (BuildPolicy d) with
  | Some (message, s') => Thrown (LibraryError message) s'
  | None => Returned d s
  end.

(** An attribute of a declared construct, as a string with one reference. *)
Definition attr (id : string) (a : Attribute) : list Fragment := [Ref id a].

(** ** The stack definition *)

(** The inputs read from [process.env] at lines 17 to 24 of the source. *)
Module Input.
Definition prefix (env : gmap string string) : string :=
  JS.or (env !! "namePrefix") "agent".

Definition memorySize (env : gmap string string) : JS.number :=
  JS.parseInt (JS.or (env !! "memorySize") "1024").

Definition timeout (env : gmap string string) : JS.number :=
  JS.parseInt (JS.or (env !! "timeout") "900").

Definition autoDeleteObjects (env : gmap string string) : bool :=
  JS.strict_eq (env !! "autoDeleteObjects") "true".
End Input.

(** Lines 27 to 29 of the source: everything after the first [/] is the
    repository with its tag; of that, the text before the first [:] is the
    repository name and the text between the first and the second [:] is
    the tag, [latest] when there is no [:]. *)
Definition parseImageUri (imageUri : string) : option string * string :=
  let uriParts := JS.split "/" imageUri in
  let repoAndTag := JS.join "/" (JS.slice1 uriParts) in
  JS.destructure2 (JS.split ":" repoAndTag) "latest".

Definition consumerPolicy (inputBucket outputBucket inputQueue outputQueue : string)
  : iam.PolicyDocument :=
  {| iam.statements := [
       {| iam.effect := iam.ALLOW;
          iam.actions := ["s3:PutObject"];
          iam.resources := [attr inputBucket BucketArn ++ [Lit "/*"]] |};
       {| iam.effect := iam.ALLOW;
          iam.actions := ["sqs:SendMessage"];
          iam.resources := [attr inputQueue QueueArn] |};
       {| iam.effect := iam.ALLOW;
          iam.actions := ["s3:GetObject"];
          iam.resources := [attr outputBucket BucketArn ++ [Lit "/*"]] |};
       {| iam.effect := iam.ALLOW;
          iam.actions := ["s3:ListBucket"];
          iam.resources := [attr outputBucket BucketArn] |};
       {| iam.effect := iam.ALLOW;
          iam.actions := ["sqs:ReceiveMessage"; "sqs:DeleteMessage"; "sqs:GetQueueAttributes"];
          iam.resources := [attr outputQueue QueueArn] |}
     ] |}.

(** The body of the constructor, after [super(scope, id, props)]. *)
Definition constructor (U : Platform) (env : gmap string string) : M unit :=
  let prefix := Input.prefix env in
  match env !! "imageUri" with
  | None | Some EmptyString =>
      throw (mkError "imageUri environment variable is required")
  | Some imageUri =>
      let memorySize := Input.memorySize env in
      let timeout := Input.timeout env in
      let autoDeleteObjects := Input.autoDeleteObjects env in
      let '(repoName, imageTag) := parseImageUri imageUri in
      name ← this_stackName;
      inputBucket ← addChild U "InputBucket" (Bucket
        {| s3.bucketName := JS.toLowerCase (lowerUnicode U) (prefix +:+ "-input-" +:+ name);
           s3.versioned := true;
           s3.removalPolicy :=
             if autoDeleteObjects then RemovalPolicy.DESTROY else RemovalPolicy.RETAIN;
           s3.autoDeleteObjects := autoDeleteObjects;
           s3.blockPublicAccess := s3.BLOCK_ALL;
           s3.encryption := s3.S3_MANAGED |});
      outputBucket ← addChild U "OutputBucket" (Bucket
        {| s3.bucketName := JS.toLowerCase (lowerUnicode U) (prefix +:+ "-output-" +:+ name);
           s3.versioned := true;
           s3.removalPolicy :=
             if autoDeleteObjects then RemovalPolicy.DESTROY else RemovalPolicy.RETAIN;
           s3.autoDeleteObjects := autoDeleteObjects;
           s3.blockPublicAccess := s3.BLOCK_ALL;
           s3.encryption := s3.S3_MANAGED |});
      inputQueue ← addChild U "InputQueue" (Queue
        {| sqs.queueName := JS.toLowerCase (lowerUnicode U) (prefix +:+ "-input-" +:+ name);
           sqs.visibilityTimeout := Duration.seconds (JS.mul timeout 6%positive);
           sqs.retentionPeriod := Duration.days (JS.Num 14) |});
      outputQueue ← addChild U "OutputQueue" (Queue
        {| sqs.queueName := JS.toLowerCase (lowerUnicode U) (prefix +:+ "-output-" +:+ name);
           sqs.visibilityTimeout := Duration.seconds (JS.Num 30);
           sqs.retentionPeriod := Duration.days (JS.Num 14) |});
      repository ← addChild U "EcrRepo" (Repository repoName);
      fn ← addChild U "AgentFunction" (DockerImageFunction
        {| lambda.functionName := JS.toLowerCase (lowerUnicode U) (prefix +:+ "-" +:+ name);
           lambda.code := lambda.fromEcr repository imageTag;
           lambda.memorySize := memorySize;
           lambda.timeout := Duration.seconds timeout;
           lambda.environment :=
             {[ "INPUT_BUCKET" := attr inputBucket BucketName;
                "OUTPUT_BUCKET" := attr outputBucket BucketName;
                "OUTPUT_SQS_QUEUE_URL" := attr outputQueue QueueUrl ]} |});
      addGrant U (grantRead inputBucket fn);;
      addGrant U (grantWrite outputBucket fn);;
      addGrant U (grantSendMessages outputQueue fn);;
      addEventSource U fn inputQueue 1;;
      policy ← newPolicyDocument U
        (consumerPolicy inputBucket outputBucket inputQueue outputQueue);
      addChild U "inputBucketName"
        (CfnOutput (Text (attr inputBucket BucketName)) "Name of the input S3 bucket");;
      addChild U "inputQueueUrl"
        (CfnOutput (Text (attr inputQueue QueueUrl)) "URL of the input SQS queue");;
      addChild U "outputBucketName"
        (CfnOutput (Text (attr outputBucket BucketName)) "Name of the output S3 bucket");;
      addChild U "outputQueueUrl"
        (CfnOutput (Text (attr outputQueue QueueUrl)) "URL of the output SQS queue");;
      addChild U "lambdaFunctionName"
        (CfnOutput (Text (attr fn FunctionName)) "Name of the Lambda function");;
      rg ← this_region;
      addChild U "awsRegion" (CfnOutput (Text [Lit rg]) "AWS region");;
      addChild U "iamPolicyClaudeAgentClient"
        (CfnOutput (PolicyJson policy) "IAM policy document for consumer applications");;
      mret tt
  end.

(** [new HereyaClaudeAgentStack(scope, id, props)] on the platform [U], for
    the environment [env]; [name] and [rg] are the stack name and the region
    the base class resolves from [id] and [props]. *)
Definition HereyaClaudeAgentStack
  (U : Platform) (env : gmap string string) (name rg : string) : Outcome unit :=
  constructor U env (super name rg).

(** ** Reading a constructed stack *)

Definition stackOf {A : Type} (o : Outcome A) : Stack :=
  match o with
  | Returned _ s => s
  | Thrown _ s => s
  end.

Fixpoint findChild (id : string) (cs : list (string * Construct)) : option Construct :=
  match cs with
  | [] => None
  | (id', c) :: rest => if bool_decide (id' = id) then Some c else findChild id rest
  end.

Definition asBucket (c : Construct) : option s3.BucketProps :=
  match c with Bucket p => Some p | _ => None end.

Definition asQueue (c : Construct) : option sqs.QueueProps :=
  match c with Queue p => Some p | _ => None end.

Definition asFunction (c : Construct) : option lambda.DockerImageFunctionProps :=
  match c with DockerImageFunction p => Some p | _ => None end.

Definition asRepository (c : Construct) : option (option string) :=
  match c with Repository n => Some n | _ => None end.

Definition asPolicy (c : Construct) : option iam.PolicyDocument :=
  match c with CfnOutput (PolicyJson d) _ => Some d | _ => None end.

Definition getBucket (s : Stack) (id : string) : option s3.BucketProps :=
  findChild id (children s) ≫= asBucket.

Definition getQueue (s : Stack) (id : string) : option sqs.QueueProps :=
  findChild id (children s) ≫= asQueue.

Definition getFunction (s : Stack) (id : string) : option lambda.DockerImageFunctionProps :=
  findChild id (children s) ≫= asFunction.

Definition getRepository (s : Stack) (id : string) : option (option string) :=
  findChild id (children s) ≫= asRepository.

Definition getPolicy (s : Stack) (id : string) : option iam.PolicyDocument :=
  findChild id (children s) ≫= asPolicy.

(** All buckets, queues and functions of a stack, with their identifiers. *)
Definition buckets (s : Stack) : list (string * s3.BucketProps) :=
  omap (λ '(id, c), (λ p, (id, p)) <$> asBucket c) (children s).

Definition queues (s : Stack) : list (string * sqs.QueueProps) :=
  omap (λ '(id, c), (λ p, (id, p)) <$> asQueue c) (children s).

Definition functions (s : Stack) : list (string * lambda.DockerImageFunctionProps) :=
  omap (λ '(id, c), (λ p, (id, p)) <$> asFunction c) (children s).

(** The (effect, action, resource) triples a policy document grants. *)
Definition permissions (d : iam.PolicyDocument)
  : list (iam.Effect * string * list Fragment) :=
  st ← iam.statements d;
  a ← iam.actions st;
  r ← iam.resources st;
  [(iam.effect st, a, r)].

(** ** Vocabulary of the specification *)

(** Whether a character occurs in a string. *)
Fixpoint occurs (c : ascii) (s : string) : bool :=
  match s with
  | EmptyString => false
  | String c' r => bool_decide (c' = c) || occurs c r
  end.

(** An image reference that parses into registry, repository and tag
    components, after the shape the source gives in its comment:
    [{registry}/{repo}:{tag}]. *)
Definition parseable (imageUri : string) : Prop :=
  ∃ registry repo tag : string,
    registry ≠ EmptyString ∧ repo ≠ EmptyString ∧ tag ≠ EmptyString ∧
    imageUri = registry +:+ "/" +:+ repo +:+ ":" +:+ tag.

(** Decimal numerals: the string of a list of digits, most significant
    first, and the number it denotes. *)
Definition digitChar (d : Z) : ascii := ascii_of_N (Z.to_N (48 + d)).

Fixpoint numeral (ds : list Z) : string :=
  match ds with
  | [] => EmptyString
  | d :: r => String (digitChar d) (numeral r)
  end.

Definition value (ds : list Z) : Z := foldl (λ acc d, 10 * acc + d) 0 ds.

Definition isDigit (d : Z) : Prop := 0 ≤ d ≤ 9.

(** A variable that is absent or empty, which [||] treats alike. *)
Definition unset (v : option string) : Prop := v = None ∨ v = Some EmptyString.

(** [prefixIs env P]: the prefix the environment asks for is [P], the value
    of [namePrefix], or [agent] when that is unset or empty. *)
Definition prefixIs (env : gmap string string) (P : string) : Prop :=
  (unset (env !! "namePrefix") ∧ P = "agent")
  ∨ (env !! "namePrefix" = Some P ∧ P ≠ EmptyString).

(** The configuration of the repository's tests: only the image reference
    is set, and the stack is called [TestStack]. *)
Definition TEST_IMAGE_URI : string :=
  "123456789012.dkr.ecr.us-east-1.amazonaws.com/my-agent:latest".

Definition testEnv : gmap string string := {[ "imageUri" := TEST_IMAGE_URI ]}.

(** A platform on which the library accepts every call, as it does for the
    configurations of the repository's tests. *)
Definition testPlatform : Platform :=
  {| rejects := λ _ _, None; lowerUnicode := λ s, s |}.

Definition testStack : Stack :=
  stackOf (HereyaClaudeAgentStack testPlatform testEnv "TestStack" "us-east-1").

(** Further configurations of the tests: a timeout of 300 seconds; a
    memory of 2048 with a timeout of 600, here with the prefix [MyApp]. *)
Definition timeout300Env : gmap string string := <[ "timeout" := "300" ]> testEnv.

Definition customEnv : gmap string string :=
  {[ "imageUri" := TEST_IMAGE_URI;
     "namePrefix" := "MyApp";
     "memorySize" := "2048";
     "timeout" := "600" ]}.

Definition customStack : Stack :=
  stackOf (HereyaClaudeAgentStack testPlatform customEnv "TestStack" "us-east-1").

(** A configuration in which the name prefix is set, to the empty string. *)
Definition emptyPrefixEnv : gmap string string :=
  {[ "imageUri" := TEST_IMAGE_URI; "namePrefix" := EmptyString ]}.

(** The one error the stack definition throws itself. *)
Definition imageUriRequired : Error :=
  mkError "imageUri environment variable is required".

(** ** Vocabulary for the resource graph and for text *)

(** The outputs of a stack, with their identifiers. *)
Definition asOutput (c : Construct) : option OutputValue :=
  match c with CfnOutput v _ => Some v | _ => None end.

Definition outputs (s : Stack) : list (string * OutputValue) :=
  omap (λ '(id, c), (λ v, (id, v)) <$> asOutput c) (children s).

(** The physical names a stack gives to its buckets, queues and functions,
    in that order. *)
Definition resourceNames (s : Stack) : list string :=
  ((λ b, s3.bucketName b.2) <$> buckets s)
  ++ ((λ q, sqs.queueName q.2) <$> queues s)
  ++ ((λ f, lambda.functionName f.2) <$> functions s).

(** The text before and after the first occurrence of a character; when
    the character does not occur these are the whole text and nothing. *)
Fixpoint beforeFirst (c : ascii) (s : string) : string :=
  match s with
  | EmptyString => EmptyString
  | String x r => if bool_decide (x = c) then EmptyString else String x (beforeFirst c r)
  end.

Fixpoint afterFirst (c : ascii) (s : string) : string :=
  match s with
  | EmptyString => EmptyString
  | String x r => if bool_decide (x = c) then r else afterFirst c r
  end.

(** The number of occurrences of a character. *)
Fixpoint count (c : ascii) (s : string) : nat :=
  match s with
  | EmptyString => 0%nat
  | String x r => ((if bool_decide (x = c) then 1 else 0) + count c r)%nat
  end.

(** Upper-case ASCII letters. *)
Definition isUpper (c : ascii) : bool := (65 <=? JS.code c) && (JS.code c <=? 90).

Fixpoint hasUpper (s : string) : bool :=
  match s with
  | EmptyString => false
  | String c r => isUpper c || hasUpper r
  end.

(** A text that [parseInt] stops reading digits at: the end, or a
    character that is not a decimal digit. *)
Definition stopsDigits (rest : string) : Prop :=
  match rest with
  | EmptyString => True
  | String c _ => JS.digit c = None
  end.

(** The variables the constructor reads. *)
Definition inputVariables : list string :=
  ["namePrefix"; "imageUri"; "memorySize"; "timeout"; "autoDeleteObjects"].

(** A configuration with every input set, and one variable the constructor
    does not read. *)
Definition fullEnv : gmap string string :=
  {[ "imageUri" := "registry.example.com:5000/team/agent:v2:extra";
     "namePrefix" := "MyApp";
     "memorySize" := "2048MB";
     "timeout" := "600";
     "autoDeleteObjects" := "true";
     "anthropicApiKey" := "unused" ]}.

Definition fullStack : Stack :=
  stackOf (HereyaClaudeAgentStack testPlatform fullEnv "ProdStack" "eu-west-1").

(** Configurations with a memory size that is negative, and one that is
    not a number. *)
Definition negativeMemoryEnv : gmap string string := <[ "memorySize" := "-5" ]> testEnv.

Definition wordMemoryEnv : gmap string string := <[ "memorySize" := "big" ]> testEnv.

(** * Properties *)

(** ** The primitives on examples *)

Example toLowerCase_mixed :
  JS.toLowerCase (λ s, s) "MyApp-input-TestStack" = "myapp-input-teststack".
Proof. reflexivity. Qed.

Example split_uri :
  JS.split "/" "123456789012.dkr.ecr.us-east-1.amazonaws.com/team/my-agent:latest"
  = ["123456789012.dkr.ecr.us-east-1.amazonaws.com"; "team"; "my-agent:latest"].
Proof. reflexivity. Qed.

Example split_empty : JS.split ":" EmptyString = [EmptyString].
Proof. reflexivity. Qed.

Example split_trailing : JS.split ":" "repo:" = ["repo"; EmptyString].
Proof. reflexivity. Qed.

Example join_slice :
  JS.join "/" (JS.slice1 (JS.split "/" "registry/team/my-agent:v1")) = "team/my-agent:v1".
Proof. reflexivity. Qed.

Example parseInt_plain : JS.parseInt "1024" = JS.Num 1024.
Proof. reflexivity. Qed.

Example parseInt_suffix : JS.parseInt "  -12px" = JS.Num (-12).
Proof. reflexivity. Qed.

Example parseInt_nan : JS.parseInt "abc" = JS.NaN.
Proof. reflexivity. Qed.

Example parseInt_rounds : JS.parseInt "9007199254740993" = JS.Beyond.
Proof. reflexivity. Qed.

Example parseInt_no_break_space :
  JS.parseInt (String (ascii_of_nat 194) (String (ascii_of_nat 160) "5")) = JS.Num 5.
Proof. reflexivity. Qed.

Example parseImageUri_test : parseImageUri TEST_IMAGE_URI = (Some "my-agent", "latest").
Proof. reflexivity. Qed.

Example parseImageUri_nested : parseImageUri "registry/team/agent:v2" = (Some "team/agent", "v2").
Proof. reflexivity. Qed.

(** ** Running the constructor *)

(** Unfolds the monadic plumbing, leaving the calls into the library. *)
Ltac run_constructor :=
  cbv [HereyaClaudeAgentStack constructor mbind M_bind mret M_ret throw
       addChild addGrant addEventSource newPolicyDocument
       this_stackName this_region super
       stackName region children grants eventSources app].

(** In [H : ... = Returned _ _], where the left-hand side has been run,
    every call into the library was accepted. *)
Ltac library_accepts H :=
  repeat match type of H with
  | context [rejects ?U ?s ?c] =>
      destruct (rejects U s c) as [[? ?]|]; cbv beta iota in H; [discriminate H|]
  end.

(** From [H : HereyaClaudeAgentStack U env name rg = Returned tt st], finds
    that the image reference is a non-empty string and replaces [st] by the
    stack that was built. *)
Ltac returned H :=
  unfold HereyaClaudeAgentStack, constructor in H;
  destruct (_ !! "imageUri") as [[|? ?]|] eqn:?;
    [discriminate H | | discriminate H];
  destruct (parseImageUri _) as [? ?] eqn:?;
  cbv [mbind M_bind mret M_ret throw addChild addGrant addEventSource
       newPolicyDocument this_stackName this_region super stackName region
       children grants eventSources app] in H;
  library_accepts H;
  injection H as <-.

(** In [H : ... = Thrown e st], where the left-hand side has been run and
    starts with a call into the library: the error is the library's. *)
Ltac library_throws H :=
  repeat match type of H with
  | context [rejects ?U ?s ?c] =>
      destruct (rejects U s c) as [[?message ?after]|]; cbv beta iota in H;
      [injection H as <- <-; by eauto|]
  end.

(** Whatever is thrown is the one error of the stack definition, thrown
    for a missing image reference before anything is declared, or an error
    of the library, thrown for a present one. *)
Lemma thrown_inv (U : Platform) (env : gmap string string) (name rg : string)
    (e : Error) (st : Stack) :
  HereyaClaudeAgentStack U env name rg = Thrown e st →
  (e = imageUriRequired ∧ unset (env !! "imageUri") ∧ st = super name rg)
  ∨ (∃ message, e = LibraryError message ∧ ¬ unset (env !! "imageUri")).
Proof.
  unfold HereyaClaudeAgentStack, constructor.
  destruct (env !! "imageUri") as [[|c r]|] eqn:E.
  - intros [= <- <-]. left. unfold unset. auto.
  - destruct (parseImageUri _). run_constructor. intros H. right.
    assert (¬ unset (Some (String c r))) as Hset by (intros [?|?]; discriminate).
    library_throws H. discriminate H.
  - intros [= <- <-]. left. unfold unset. auto.
Qed.

(** ** Validation of the image reference *)

(** C1. When [imageUri] is absent or empty, construction throws the error
    [imageUri environment variable is required], and it does so before
    anything is declared in the stack; when [imageUri] is a non-empty
    string construction does not throw this error; and every error other
    than this one comes from the library, not from the stack definition. *)
Theorem imageUri_required
    (U : Platform) (env : gmap string string) (name rg : string) :
  ((env !! "imageUri" = None ∨ env !! "imageUri" = Some EmptyString) →
     HereyaClaudeAgentStack U env name rg = Thrown imageUriRequired (super name rg))
  ∧ (∀ uri, env !! "imageUri" = Some uri → uri ≠ EmptyString →
       ∀ st, HereyaClaudeAgentStack U env name rg ≠ Thrown imageUriRequired st)
  ∧ (∀ e st, HereyaClaudeAgentStack U env name rg = Thrown e st →
       (e = imageUriRequired
        ∧ (env !! "imageUri" = None ∨ env !! "imageUri" = Some EmptyString)
        ∧ st = super name rg)
       ∨ ∃ message, e = LibraryError message).
Proof.
  split; [|split].
  - intros [H|H]; unfold HereyaClaudeAgentStack, constructor; by rewrite H.
  - intros uri H Hne st Hthrown.
    apply thrown_inv in Hthrown as [(_ & [Hu|Hu] & _)|(message & [=] & _)].
    + rewrite H in Hu. discriminate Hu.
    + rewrite H in Hu. by injection Hu as ->.
  - intros e st H. apply thrown_inv in H as [(-> & Hu & ->)|(message & -> & _)].
    + left. done.
    + right. by exists message.
Qed.

Lemma imageUri_required_witness :
  HereyaClaudeAgentStack testPlatform ∅ "TestStack" "us-east-1"
  = Thrown imageUriRequired (super "TestStack" "us-east-1")
  ∧ HereyaClaudeAgentStack testPlatform testEnv "TestStack" "us-east-1"
    ≠ Thrown imageUriRequired (super "TestStack" "us-east-1").
Proof.
  split.
  - apply (proj1 (imageUri_required testPlatform ∅ "TestStack" "us-east-1")).
    left. reflexivity.
  - apply (proj1 (proj2 (imageUri_required testPlatform testEnv "TestStack" "us-east-1"))
             TEST_IMAGE_URI).
    + reflexivity.
    + discriminate.
Defined.

(** ** The resources of the stack *)

(** C7. A constructed stack holds exactly two buckets and exactly two
    queues. *)
Theorem two_buckets_two_queues
    (U : Platform) (env : gmap string string) (name rg : string) (st : Stack) :
  HereyaClaudeAgentStack U env name rg = Returned tt st →
  length (buckets st) = 2%nat ∧ length (queues st) = 2%nat.
Proof. intros H. returned H. split; reflexivity. Qed.

Lemma two_buckets_two_queues_witness :
  length (buckets testStack) = 2%nat ∧ length (queues testStack) = 2%nat.
Proof.
  apply (two_buckets_two_queues testPlatform testEnv "TestStack" "us-east-1" testStack).
  vm_compute. reflexivity.
Defined.

(** The two buckets and the two queues are the ones declared under the
    identifiers of the source, and there is one function. *)
Lemma resource_identifiers
    (U : Platform) (env : gmap string string) (name rg : string) (st : Stack) :
  HereyaClaudeAgentStack U env name rg = Returned tt st →
  (buckets st).*1 = ["InputBucket"; "OutputBucket"]
  ∧ (queues st).*1 = ["InputQueue"; "OutputQueue"]
  ∧ (functions st).*1 = ["AgentFunction"].
Proof. intros H. returned H. repeat split; reflexivity. Qed.

(** C9. The output queue's visibility timeout is 30 seconds whatever the
    inputs are, and both queues keep messages for 14 days. *)
Theorem output_queue_timeout_and_retention
    (U : Platform) (env : gmap string string) (name rg : string) (st : Stack) :
  HereyaClaudeAgentStack U env name rg = Returned tt st →
  ∃ qi qo,
    getQueue st "InputQueue" = Some qi ∧ getQueue st "OutputQueue" = Some qo
    ∧ sqs.visibilityTimeout qo = Duration.seconds (JS.Num 30)
    ∧ sqs.retentionPeriod qi = Duration.days (JS.Num 14)
    ∧ sqs.retentionPeriod qo = Duration.days (JS.Num 14).
Proof.
  intros H. returned H.
  do 2 eexists. split; [reflexivity|]. split; [reflexivity|]. done.
Qed.

Lemma output_queue_timeout_and_retention_witness :
  ∃ qi qo,
    getQueue testStack "InputQueue" = Some qi ∧ getQueue testStack "OutputQueue" = Some qo
    ∧ sqs.visibilityTimeout qo = Duration.seconds (JS.Num 30)
    ∧ sqs.retentionPeriod qi = Duration.days (JS.Num 14)
    ∧ sqs.retentionPeriod qo = Duration.days (JS.Num 14).
Proof.
  apply (output_queue_timeout_and_retention testPlatform testEnv
           "TestStack" "us-east-1" testStack).
  vm_compute. reflexivity.
Defined.

(** ** Removal policy of the buckets *)

Lemma strict_eq_true (v : option string) (s : string) :
  JS.strict_eq v s = true ↔ v = Some s.
Proof.
  destruct v as [x|]; simpl; [|done].
  rewrite bool_decide_eq_true. split; [by intros ->|by intros [= ->]].
Qed.

Example autoDelete_capitalised : Input.autoDeleteObjects {[ "autoDeleteObjects" := "True" ]} = false.
Proof. reflexivity. Qed.

Example autoDelete_one : Input.autoDeleteObjects {[ "autoDeleteObjects" := "1" ]} = false.
Proof. reflexivity. Qed.

Example autoDelete_yes : Input.autoDeleteObjects {[ "autoDeleteObjects" := "yes" ]} = false.
Proof. reflexivity. Qed.

Example autoDelete_unset : Input.autoDeleteObjects ∅ = false.
Proof. reflexivity. Qed.

(** C10. Both buckets are removed with the stack, objects included, exactly
    when [autoDeleteObjects] is the string [true]; for any other value and
    when the variable is unset both are retained; the two buckets always
    have the same removal policy. *)
Theorem removal_policy_strict
    (U : Platform) (env : gmap string string) (name rg : string) (st : Stack) :
  HereyaClaudeAgentStack U env name rg = Returned tt st →
  ∃ bi bo,
    getBucket st "InputBucket" = Some bi ∧ getBucket st "OutputBucket" = Some bo
    ∧ s3.removalPolicy bi = s3.removalPolicy bo
    ∧ s3.autoDeleteObjects bi = s3.autoDeleteObjects bo
    ∧ (env !! "autoDeleteObjects" = Some "true" →
         s3.removalPolicy bi = RemovalPolicy.DESTROY ∧ s3.autoDeleteObjects bi = true)
    ∧ (env !! "autoDeleteObjects" ≠ Some "true" →
         s3.removalPolicy bi = RemovalPolicy.RETAIN ∧ s3.autoDeleteObjects bi = false).
Proof.
  intros H. returned H.
  do 2 eexists. split; [reflexivity|]. split; [reflexivity|].
  cbn [s3.removalPolicy s3.autoDeleteObjects]. unfold Input.autoDeleteObjects.
  split; [done|]. split; [done|]. split.
  - intros Ht. by rewrite (proj2 (strict_eq_true _ _) Ht).
  - intros Hf. destruct (JS.strict_eq _ _) eqn:E; [|done].
    by apply strict_eq_true in E.
Qed.

Lemma removal_policy_strict_witness :
  ∃ bi bo,
    getBucket testStack "InputBucket" = Some bi ∧ getBucket testStack "OutputBucket" = Some bo
    ∧ s3.removalPolicy bi = s3.removalPolicy bo
    ∧ s3.autoDeleteObjects bi = s3.autoDeleteObjects bo
    ∧ (testEnv !! "autoDeleteObjects" = Some "true" →
         s3.removalPolicy bi = RemovalPolicy.DESTROY ∧ s3.autoDeleteObjects bi = true)
    ∧ (testEnv !! "autoDeleteObjects" ≠ Some "true" →
         s3.removalPolicy bi = RemovalPolicy.RETAIN ∧ s3.autoDeleteObjects bi = false).
Proof.
  apply (removal_policy_strict testPlatform testEnv "TestStack" "us-east-1" testStack).
  vm_compute. reflexivity.
Defined.

(** ** The consumer policy *)

(** C3. The policy document published by the stack grants exactly seven
    permissions, all with effect [Allow]: [s3:PutObject] on the objects of
    the input bucket, [sqs:SendMessage] on the input queue, [s3:GetObject]
    on the objects of the output bucket, [s3:ListBucket] on the output
    bucket, and [sqs:ReceiveMessage], [sqs:DeleteMessage] and
    [sqs:GetQueueAttributes] on the output queue. *)
Theorem consumer_policy_permissions
    (U : Platform) (env : gmap string string) (name rg : string) (st : Stack) :
  HereyaClaudeAgentStack U env name rg = Returned tt st →
  ∃ d,
    getPolicy st "iamPolicyClaudeAgentClient" = Some d
    ∧ permissions d =
        [ (iam.ALLOW, "s3:PutObject", [Ref "InputBucket" BucketArn; Lit "/*"]);
          (iam.ALLOW, "sqs:SendMessage", [Ref "InputQueue" QueueArn]);
          (iam.ALLOW, "s3:GetObject", [Ref "OutputBucket" BucketArn; Lit "/*"]);
          (iam.ALLOW, "s3:ListBucket", [Ref "OutputBucket" BucketArn]);
          (iam.ALLOW, "sqs:ReceiveMessage", [Ref "OutputQueue" QueueArn]);
          (iam.ALLOW, "sqs:DeleteMessage", [Ref "OutputQueue" QueueArn]);
          (iam.ALLOW, "sqs:GetQueueAttributes", [Ref "OutputQueue" QueueArn]) ].
Proof.
  intros H. returned H. eexists. split; reflexivity.
Qed.

Lemma consumer_policy_permissions_witness :
  ∃ d,
    getPolicy testStack "iamPolicyClaudeAgentClient" = Some d
    ∧ length (permissions d) = 7%nat.
Proof.
  destruct (consumer_policy_permissions testPlatform testEnv "TestStack" "us-east-1" testStack)
    as (d & Hd & Hp).
  - vm_compute. reflexivity.
  - exists d. split; [exact Hd|]. rewrite Hp. reflexivity.
Defined.

(** The references in the policy point at the buckets and queues of the
    stack. *)
Lemma policy_targets_exist
    (U : Platform) (env : gmap string string) (name rg : string) (st : Stack) :
  HereyaClaudeAgentStack U env name rg = Returned tt st →
  is_Some (getBucket st "InputBucket") ∧ is_Some (getBucket st "OutputBucket")
  ∧ is_Some (getQueue st "InputQueue") ∧ is_Some (getQueue st "OutputQueue").
Proof. intros H. returned H. repeat split; eexists; reflexivity. Qed.

(** ** Numbers read from the environment *)

Lemma exact_spec (z : Z) :
  JS.exact z = true ↔ -9007199254740992 ≤ z ≤ 9007199254740992.
Proof. unfold JS.exact. rewrite andb_true_iff, !Z.leb_le. done. Qed.

Lemma ofInteger_exact (z : Z) :
  -9007199254740992 ≤ z ≤ 9007199254740992 → JS.ofInteger z = JS.Num z.
Proof. intros H. unfold JS.ofInteger. by rewrite (proj2 (exact_spec z) H). Qed.

Lemma or_unset (v : option string) (d : string) : unset v → JS.or v d = d.
Proof. by intros [->| ->]. Qed.

Lemma or_set (v d : string) : v ≠ EmptyString → JS.or (Some v) d = v.
Proof. by destruct v. Qed.

Lemma digit_digitChar (d : Z) : isDigit d → JS.digit (digitChar d) = Some d.
Proof.
  intros [Hlo Hhi].
  assert (d = 0 ∨ d = 1 ∨ d = 2 ∨ d = 3 ∨ d = 4 ∨ d = 5 ∨ d = 6 ∨ d = 7 ∨ d = 8 ∨ d = 9)
    as Hcases by lia.
  repeat (destruct Hcases as [->|Hcases]; [reflexivity|]). by subst.
Qed.

(** A character below 128 that is not one of the six one-byte white-space
    characters starts no white space at all. *)
Lemma trimStart_keeps (c : ascii) (r : string) :
  JS.code c < 128 → JS.is_white_space c = false →
  JS.trimStart (String c r) = String c r.
Proof.
  intros Hc Hw. cbn [JS.trimStart]. rewrite Hw.
  assert (∀ k, 128 ≤ k → (JS.code c =? k) = false) as Hk
    by (intros k ?; apply Z.eqb_neq; lia).
  destruct r as [|b r2]; [done|].
  unfold JS.is_white_space2. rewrite (Hk 194) by lia. cbn [andb].
  destruct r2 as [|c' r3]; [done|].
  unfold JS.is_white_space3.
  rewrite (Hk 225), (Hk 226), (Hk 227), (Hk 239) by lia. reflexivity.
Qed.

(** A digit is below 128 and is neither white space nor a sign. *)
Lemma digit_not_skipped (c : ascii) (d : Z) :
  JS.digit c = Some d →
  JS.code c < 128 ∧ JS.is_white_space c = false ∧ c ≠ "-"%char ∧ c ≠ "+"%char.
Proof.
  destruct c as [[] [] [] [] [] [] [] []]; try discriminate; intros _; done.
Qed.

Lemma parseInt_digit_first (c : ascii) (d : Z) (r : string) :
  JS.digit c = Some d →
  JS.parseInt (String c r) =
    match JS.digits None (String c r) with
    | None => JS.NaN
    | Some m => JS.ofInteger (1 * m)
    end.
Proof.
  intros Hd. destruct (digit_not_skipped _ _ Hd) as (Hc & Hw & Hm & Hp).
  unfold JS.parseInt. rewrite (trimStart_keeps _ _ Hc Hw).
  destruct c as [[] [] [] [] [] [] [] []]; try done.
Qed.

Lemma digits_numeral_stop (acc : Z) (ds : list Z) (rest : string) :
  Forall isDigit ds → stopsDigits rest →
  JS.digits (Some acc) (numeral ds +:+ rest) = Some (foldl (λ a d, 10 * a + d) acc ds).
Proof.
  intros Hds Hrest. revert acc.
  induction Hds as [|d ds Hd _ IH]; intros acc; simpl.
  - destruct rest as [|c r]; simpl; [done|]. simpl in Hrest. by rewrite Hrest.
  - by rewrite (digit_digitChar _ Hd), IH.
Qed.

Lemma digits_numeral_start (ds : list Z) (rest : string) :
  ds ≠ [] → Forall isDigit ds → stopsDigits rest →
  JS.digits None (numeral ds +:+ rest) = Some (value ds).
Proof.
  intros Hne Hds Hrest. destruct ds as [|d ds]; [done|].
  apply Forall_cons in Hds as [Hd Hds].
  change (numeral (d :: ds) +:+ rest) with (String (digitChar d) (numeral ds +:+ rest)).
  simpl JS.digits. rewrite (digit_digitChar _ Hd). cbn [default].
  rewrite (digits_numeral_stop _ _ _ Hds Hrest). unfold value. cbn [foldl].
  reflexivity.
Qed.

Lemma foldl_digits_nonneg (acc : Z) (ds : list Z) :
  0 ≤ acc → Forall isDigit ds → 0 ≤ foldl (λ a d, 10 * a + d) acc ds.
Proof.
  intros Hacc Hds. revert acc Hacc.
  induction Hds as [|d ds [Hlo Hhi] _ IH]; intros acc Hacc; simpl; [done|].
  apply IH. lia.
Qed.

Lemma value_nonneg (ds : list Z) : Forall isDigit ds → 0 ≤ value ds.
Proof. intros Hds. unfold value. by apply foldl_digits_nonneg. Qed.

Lemma numeral_nonempty (ds : list Z) (rest : string) :
  ds ≠ [] → numeral ds +:+ rest ≠ EmptyString.
Proof. by destruct ds. Qed.

Lemma numeral_not_empty (ds : list Z) : ds ≠ [] → numeral ds ≠ EmptyString.
Proof. by destruct ds. Qed.

Lemma string_app_empty (s : string) : s +:+ EmptyString = s.
Proof.
  induction s as [|c s IH]; [done|].
  change (String c (s +:+ EmptyString) = String c s). by rewrite IH.
Qed.

(** [parseInt] reads a decimal numeral, followed by anything that is not a
    digit, as the number the numeral denotes, as long as that number is a
    double. *)
Lemma parseInt_numeral_prefix (ds : list Z) (rest : string) :
  ds ≠ [] → Forall isDigit ds → stopsDigits rest → value ds ≤ 9007199254740992 →
  JS.parseInt (numeral ds +:+ rest) = JS.Num (value ds).
Proof.
  intros Hne Hds Hrest Hsafe.
  pose proof (digits_numeral_start _ _ Hne Hds Hrest) as Hdig.
  pose proof (value_nonneg _ Hds) as Hpos.
  destruct ds as [|d ds]; [done|].
  pose proof (proj1 (Forall_cons _ _ _) Hds) as [Hd _].
  change (numeral (d :: ds) +:+ rest) with (String (digitChar d) (numeral ds +:+ rest)) in *.
  rewrite (parseInt_digit_first _ d _ (digit_digitChar _ Hd)), Hdig.
  rewrite ofInteger_exact by lia. f_equal. lia.
Qed.

Lemma parseInt_numeral (ds : list Z) :
  ds ≠ [] → Forall isDigit ds → value ds ≤ 9007199254740992 →
  JS.parseInt (numeral ds) = JS.Num (value ds).
Proof.
  intros Hne Hds Hsafe.
  replace (numeral ds) with (numeral ds +:+ EmptyString) by apply string_app_empty.
  by apply parseInt_numeral_prefix.
Qed.

Example numeral_2048 : numeral [2; 0; 4; 8] = "2048" ∧ value [2; 0; 4; 8] = 2048.
Proof. split; reflexivity. Qed.

(** The numbers the constructor hands to the function and to the input
    queue. *)
Lemma numeric_inputs_built
    (U : Platform) (env : gmap string string) (name rg : string) (st : Stack) :
  HereyaClaudeAgentStack U env name rg = Returned tt st →
  ∃ q f,
    getQueue st "InputQueue" = Some q ∧ getFunction st "AgentFunction" = Some f
    ∧ lambda.memorySize f = Input.memorySize env
    ∧ lambda.timeout f = Duration.seconds (Input.timeout env)
    ∧ sqs.visibilityTimeout q = Duration.seconds (JS.mul (Input.timeout env) 6).
Proof.
  intros H. returned H. do 2 eexists.
  split; [reflexivity|]. split; [reflexivity|]. done.
Qed.

(** ** Timeouts *)

(** C2. With [T] the timeout input, the function's timeout is [T] seconds
    and the visibility timeout of the input queue is [T * 6] seconds.  [T]
    is 900 when the variable is unset or empty and otherwise the number
    [parseInt] reads from it, for a decimal numeral the number it denotes;
    [T * 6] is the double product, equal to [6 * T] wherever that is a
    double. *)
Theorem input_queue_visibility_timeout
    (U : Platform) (env : gmap string string) (name rg : string) (st : Stack) :
  HereyaClaudeAgentStack U env name rg = Returned tt st →
  ∃ q f,
    getQueue st "InputQueue" = Some q ∧ getFunction st "AgentFunction" = Some f
    ∧ (unset (env !! "timeout") →
         lambda.timeout f = Duration.seconds (JS.Num 900)
         ∧ sqs.visibilityTimeout q = Duration.seconds (JS.Num 5400))
    ∧ (∀ v T, env !! "timeout" = Some v → v ≠ EmptyString → JS.parseInt v = JS.Num T →
         lambda.timeout f = Duration.seconds (JS.Num T)
         ∧ sqs.visibilityTimeout q = Duration.seconds (JS.mul (JS.Num T) 6)
         ∧ (-9007199254740992 ≤ 6 * T ≤ 9007199254740992 →
              sqs.visibilityTimeout q = Duration.seconds (JS.Num (6 * T))))
    ∧ (∀ ds, env !! "timeout" = Some (numeral ds) → ds ≠ [] → Forall isDigit ds →
         6 * value ds ≤ 9007199254740992 →
         lambda.timeout f = Duration.seconds (JS.Num (value ds))
         ∧ sqs.visibilityTimeout q = Duration.seconds (JS.Num (6 * value ds))).
Proof.
  intros H. destruct (numeric_inputs_built _ _ _ _ _ H) as (q & f & Hq & Hf & _ & Ht & Hv).
  exists q, f. split; [done|]. split; [done|].
  rewrite Ht, Hv. unfold Input.timeout. split; [|split].
  - intros Hu. rewrite (or_unset _ _ Hu). split; reflexivity.
  - intros v T E Hne HT. rewrite E, (or_set _ _ Hne), HT.
    split; [done|]. split; [done|].
    intros Hsafe. cbn [JS.mul]. rewrite ofInteger_exact by lia.
    do 2 f_equal. lia.
  - intros ds E Hne Hds Hsafe. pose proof (value_nonneg _ Hds) as Hpos.
    rewrite E, (or_set _ _ (numeral_not_empty ds Hne)).
    rewrite parseInt_numeral by (done || lia).
    split; [done|]. cbn [JS.mul]. rewrite ofInteger_exact by lia.
    do 2 f_equal. lia.
Qed.

Lemma input_queue_visibility_timeout_witness :
  ∃ q f,
    getQueue (stackOf (HereyaClaudeAgentStack testPlatform timeout300Env
                         "TestStack" "us-east-1")) "InputQueue" = Some q
    ∧ getFunction (stackOf (HereyaClaudeAgentStack testPlatform timeout300Env
                              "TestStack" "us-east-1")) "AgentFunction" = Some f
    ∧ lambda.timeout f = Duration.seconds (JS.Num 300)
    ∧ sqs.visibilityTimeout q = Duration.seconds (JS.Num 1800).
Proof.
  destruct (input_queue_visibility_timeout testPlatform timeout300Env "TestStack" "us-east-1"
              (stackOf (HereyaClaudeAgentStack testPlatform timeout300Env
                          "TestStack" "us-east-1")))
    as (q & f & Hq & Hf & _ & _ & Hnum).
  - vm_compute. reflexivity.
  - exists q, f. split; [exact Hq|]. split; [exact Hf|].
    apply (Hnum [3; 0; 0]).
    + reflexivity.
    + discriminate.
    + repeat (apply Forall_cons; split; [unfold isDigit; lia|]). apply Forall_nil_2.
    + vm_compute. discriminate.
Defined.

Example timeout_300 :
  JS.mul (Input.timeout {[ "timeout" := "300" ]}) 6 = JS.Num 1800.
Proof. reflexivity. Qed.

(** ** Resource names *)

Lemma lowerAscii_app (a b : string) :
  JS.lowerAscii (a +:+ b) = JS.lowerAscii a +:+ JS.lowerAscii b.
Proof. induction a as [|c a IH]; simpl; [done|by rewrite IH]. Qed.

Lemma lower_char_idemp (c : ascii) : JS.lower_char (JS.lower_char c) = JS.lower_char c.
Proof. by destruct c as [[] [] [] [] [] [] [] []]. Qed.

Lemma lowerAscii_idemp (s : string) :
  JS.lowerAscii (JS.lowerAscii s) = JS.lowerAscii s.
Proof.
  induction s as [|c s IH]; simpl; [done|].
  by rewrite lower_char_idemp, IH.
Qed.

Lemma isAscii_app (a b : string) :
  JS.isAscii (a +:+ b) = JS.isAscii a && JS.isAscii b.
Proof. induction a as [|c a IH]; simpl; [done|]. by rewrite IH, andb_assoc. Qed.

Lemma lower_char_ascii (c : ascii) :
  (JS.code (JS.lower_char c) <? 128) = (JS.code c <? 128).
Proof. by destruct c as [[] [] [] [] [] [] [] []]. Qed.

Lemma isAscii_lowerAscii (s : string) : JS.isAscii (JS.lowerAscii s) = JS.isAscii s.
Proof.
  induction s as [|c s IH]; simpl; [done|].
  by rewrite lower_char_ascii, IH.
Qed.

(** On strings of ASCII characters [toLowerCase] does not depend on the
    runtime. *)
Lemma toLowerCase_ascii (unicode : string → string) (s : string) :
  JS.isAscii s = true → JS.toLowerCase unicode s = JS.lowerAscii s.
Proof. intros H. unfold JS.toLowerCase. by rewrite H. Qed.

(** The prefix, as the environment gives it. *)
Lemma prefix_cases (env : gmap string string) (P : string) :
  (unset (env !! "namePrefix") ∧ P = "agent")
  ∨ (env !! "namePrefix" = Some P ∧ P ≠ EmptyString) →
  Input.prefix env = P.
Proof.
  unfold Input.prefix. intros [[Hu ->]|[-> Hne]].
  - by apply or_unset.
  - by apply or_set.
Qed.

(** C6. With [P] the prefix, which is the value of [namePrefix] or [agent]
    when that is unset or empty, and [S] the stack name, the input bucket
    and the input queue are named [lowercase (P + "-input-" + S)], the
    output bucket and the output queue [lowercase (P + "-output-" + S)],
    and the function [lowercase (P + "-" + S)]. *)
Theorem resource_names
    (U : Platform) (env : gmap string string) (S rg : string) (st : Stack) :
  HereyaClaudeAgentStack U env S rg = Returned tt st →
  ∃ bi bo qi qo f,
    getBucket st "InputBucket" = Some bi ∧ getBucket st "OutputBucket" = Some bo
    ∧ getQueue st "InputQueue" = Some qi ∧ getQueue st "OutputQueue" = Some qo
    ∧ getFunction st "AgentFunction" = Some f
    ∧ ∀ P,
        (unset (env !! "namePrefix") ∧ P = "agent")
        ∨ (env !! "namePrefix" = Some P ∧ P ≠ EmptyString) →
        s3.bucketName bi = JS.toLowerCase (lowerUnicode U) (P +:+ "-input-" +:+ S)
        ∧ sqs.queueName qi = JS.toLowerCase (lowerUnicode U) (P +:+ "-input-" +:+ S)
        ∧ s3.bucketName bo = JS.toLowerCase (lowerUnicode U) (P +:+ "-output-" +:+ S)
        ∧ sqs.queueName qo = JS.toLowerCase (lowerUnicode U) (P +:+ "-output-" +:+ S)
        ∧ lambda.functionName f = JS.toLowerCase (lowerUnicode U) (P +:+ "-" +:+ S).
Proof.
  intros H. returned H.
  do 5 eexists. do 5 (split; [reflexivity|]).
  intros P HP. apply prefix_cases in HP as <-. done.
Qed.

Lemma resource_names_witness :
  ∃ bi bo qi qo f,
    getBucket customStack "InputBucket" = Some bi
    ∧ getBucket customStack "OutputBucket" = Some bo
    ∧ getQueue customStack "InputQueue" = Some qi
    ∧ getQueue customStack "OutputQueue" = Some qo
    ∧ getFunction customStack "AgentFunction" = Some f
    ∧ s3.bucketName bi = "myapp-input-teststack"
    ∧ sqs.queueName qi = "myapp-input-teststack"
    ∧ s3.bucketName bo = "myapp-output-teststack"
    ∧ sqs.queueName qo = "myapp-output-teststack"
    ∧ lambda.functionName f = "myapp-teststack".
Proof.
  destruct (resource_names testPlatform customEnv "TestStack" "us-east-1" customStack)
    as (bi & bo & qi & qo & f & Hbi & Hbo & Hqi & Hqo & Hf & Hn).
  - vm_compute. reflexivity.
  - exists bi, bo, qi, qo, f. do 5 (split; [assumption|]).
    apply (Hn "MyApp"). right. split; [reflexivity|discriminate].
Defined.

Example default_prefix_name :
  JS.toLowerCase (λ s, s) (Input.prefix ∅ +:+ "-input-" +:+ "TestStack")
  = "agent-input-teststack".
Proof. reflexivity. Qed.

(** ** Environment of the function *)

(** The three variables of the function, as the source writes them. *)
Lemma function_environment
    (U : Platform) (env : gmap string string) (name rg : string) (st : Stack) :
  HereyaClaudeAgentStack U env name rg = Returned tt st →
  ∃ f,
    getFunction st "AgentFunction" = Some f
    ∧ lambda.environment f =
        {[ "INPUT_BUCKET" := attr "InputBucket" BucketName;
           "OUTPUT_BUCKET" := attr "OutputBucket" BucketName;
           "OUTPUT_SQS_QUEUE_URL" := attr "OutputQueue" QueueUrl ]}.
Proof. intros H. returned H. eexists. split; reflexivity. Qed.

(** C8, as amended. The function's environment holds exactly three
    variables: [INPUT_BUCKET] is the name of the input bucket,
    [OUTPUT_BUCKET] the name of the output bucket and
    [OUTPUT_SQS_QUEUE_URL] the URL of the output queue.  The URL of the
    input queue is not passed in any variable. *)
Theorem function_environment_variables
    (U : Platform) (env : gmap string string) (name rg : string) (st : Stack) :
  HereyaClaudeAgentStack U env name rg = Returned tt st →
  ∃ f,
    getFunction st "AgentFunction" = Some f
    ∧ is_Some (getBucket st "InputBucket") ∧ is_Some (getBucket st "OutputBucket")
    ∧ is_Some (getQueue st "InputQueue") ∧ is_Some (getQueue st "OutputQueue")
    ∧ (∀ k v, lambda.environment f !! k = Some v ↔
         (k = "INPUT_BUCKET" ∧ v = attr "InputBucket" BucketName)
         ∨ (k = "OUTPUT_BUCKET" ∧ v = attr "OutputBucket" BucketName)
         ∨ (k = "OUTPUT_SQS_QUEUE_URL" ∧ v = attr "OutputQueue" QueueUrl))
    ∧ ∀ k, lambda.environment f !! k ≠ Some (attr "InputQueue" QueueUrl).
Proof.
  intros H.
  destruct (function_environment _ _ _ _ _ H) as (f & Hf & Henv).
  destruct (policy_targets_exist _ _ _ _ _ H) as (? & ? & ? & ?).
  exists f. do 5 (split; [done|]).
  assert (∀ k v, lambda.environment f !! k = Some v ↔
         (k = "INPUT_BUCKET" ∧ v = attr "InputBucket" BucketName)
         ∨ (k = "OUTPUT_BUCKET" ∧ v = attr "OutputBucket" BucketName)
         ∨ (k = "OUTPUT_SQS_QUEUE_URL" ∧ v = attr "OutputQueue" QueueUrl)) as Hchar.
  { intros k v. rewrite Henv.
    rewrite !lookup_insert_Some, lookup_singleton_Some.
    split.
    - intros [[<- <-]|[? [[<- <-]|[? [<- <-]]]]]; auto.
    - intros [[-> ->]|[[-> ->]|[-> ->]]]; [left; done| |].
      + right. split; [done|]. left. done.
      + right. split; [done|]. right. done. }
  split; [exact Hchar|].
  intros k Hk. apply Hchar in Hk as [[_ [=]]|[[_ [=]]|[_ [=]]]].
Qed.

Lemma function_environment_variables_witness :
  ∃ f,
    getFunction testStack "AgentFunction" = Some f
    ∧ lambda.environment f !! "OUTPUT_SQS_QUEUE_URL" = Some (attr "OutputQueue" QueueUrl).
Proof.
  destruct (function_environment_variables testPlatform testEnv
              "TestStack" "us-east-1" testStack)
    as (f & Hf & _ & _ & _ & _ & Hchar & _).
  - vm_compute. reflexivity.
  - exists f. split; [exact Hf|]. apply Hchar. right. right. split; reflexivity.
Defined.

(** C8, as stated, fails: in the stack of the tests the input queue exists,
    yet no variable of the function holds its URL. *)
Lemma input_queue_url_not_passed :
  is_Some (getQueue testStack "InputQueue")
  ∧ ∀ f, getFunction testStack "AgentFunction" = Some f →
      ¬ ∃ k, lambda.environment f !! k = Some (attr "InputQueue" QueueUrl).
Proof.
  split.
  - eexists. vm_compute. reflexivity.
  - intros f Hf [k Hk].
    destruct (function_environment testPlatform testEnv "TestStack" "us-east-1" testStack)
      as (f' & Hf' & Henv); [vm_compute; reflexivity|].
    rewrite Hf in Hf'. injection Hf' as <-.
    rewrite Henv in Hk.
    rewrite !lookup_insert_Some, lookup_singleton_Some in Hk.
    destruct Hk as [[_ [=]]|[_ [[_ [=]]|[_ [_ [=]]]]]].
Qed.

(** ** Taking the image reference apart *)

Lemma occurs_app (c : ascii) (a b : string) :
  occurs c (a +:+ b) = occurs c a || occurs c b.
Proof. induction a as [|x a IH]; simpl; [done|]. by rewrite IH, orb_assoc. Qed.

Lemma split_nonempty (sep : ascii) (s : string) : JS.split sep s ≠ [].
Proof.
  induction s as [|c r IH]; simpl; [done|].
  case_bool_decide; [done|]. by destruct (JS.split sep r).
Qed.

Lemma join_cons_char (sep : string) (c : ascii) (piece : string) (pieces : list string) :
  JS.join sep (String c piece :: pieces) = String c (JS.join sep (piece :: pieces)).
Proof. by destruct pieces. Qed.

(** Joining the pieces with the separator gives the string back. *)
Lemma join_split (sep : ascii) (s : string) :
  JS.join (String sep EmptyString) (JS.split sep s) = s.
Proof.
  induction s as [|c r IH]; simpl; [done|].
  case_bool_decide as Hc.
  - subst c. pose proof (split_nonempty sep r) as Hne.
    destruct (JS.split sep r) as [|p ps]; [done|].
    simpl in *. by rewrite IH.
  - pose proof (split_nonempty sep r) as Hne.
    destruct (JS.split sep r) as [|p ps]; [done|].
    by rewrite join_cons_char, IH.
Qed.

Lemma split_no_sep (sep : ascii) (a : string) :
  occurs sep a = false → JS.split sep a = [a].
Proof.
  induction a as [|c a IH]; simpl; [done|].
  intros [Hc Ha]%orb_false_elim.
  rewrite Hc, (IH Ha). done.
Qed.

Lemma split_first (sep : ascii) (a b : string) :
  occurs sep a = false →
  JS.split sep (a +:+ String sep b) = a :: JS.split sep b.
Proof.
  induction a as [|c a IH]; simpl.
  - intros _. by rewrite bool_decide_eq_true_2.
  - intros [Hc Ha]%orb_false_elim. rewrite Hc, (IH Ha). done.
Qed.

(** [uriParts.slice(1).join('/')] is what follows the first [/]. *)
Lemma repoAndTag_after_first_slash (registry rest : string) :
  occurs "/" registry = false →
  JS.join "/" (JS.slice1 (JS.split "/" (registry +:+ "/" +:+ rest))) = rest.
Proof.
  intros Hr. change ("/" +:+ rest) with (String "/" rest).
  rewrite (split_first _ _ _ Hr). unfold JS.slice1. simpl drop.
  apply (join_split "/").
Qed.

Lemma parseImageUri_tagged (registry repo tag : string) :
  occurs "/" registry = false → occurs ":" repo = false → occurs ":" tag = false →
  parseImageUri (registry +:+ "/" +:+ repo +:+ ":" +:+ tag) = (Some repo, tag).
Proof.
  intros Hr Hp Ht. unfold parseImageUri.
  rewrite (repoAndTag_after_first_slash _ _ Hr).
  change (":" +:+ tag) with (String ":" tag).
  rewrite (split_first _ _ _ Hp), (split_no_sep _ _ Ht). reflexivity.
Qed.

Lemma parseImageUri_untagged (registry repo : string) :
  occurs "/" registry = false → occurs ":" repo = false →
  parseImageUri (registry +:+ "/" +:+ repo) = (Some repo, "latest").
Proof.
  intros Hr Hp. unfold parseImageUri.
  rewrite (repoAndTag_after_first_slash _ _ Hr), (split_no_sep _ _ Hp). reflexivity.
Qed.

Lemma parseImageUri_no_slash (uri : string) :
  occurs "/" uri = false → parseImageUri uri = (Some EmptyString, "latest").
Proof. intros H. unfold parseImageUri. by rewrite (split_no_sep _ _ H). Qed.

(** The repository name is never [undefined]. *)
Lemma parseImageUri_repoName (uri : string) : is_Some (parseImageUri uri).1.
Proof.
  unfold parseImageUri, JS.destructure2. simpl.
  pose proof (split_nonempty ":" (JS.join "/" (JS.slice1 (JS.split "/" uri)))) as Hne.
  destruct (JS.split ":" _); [done|]. by eexists.
Qed.

(** What a constructed stack holds of the image reference. *)
Lemma image_parts_built
    (U : Platform) (env : gmap string string) (name rg uri : string) (st : Stack) :
  env !! "imageUri" = Some uri →
  HereyaClaudeAgentStack U env name rg = Returned tt st →
  getRepository st "EcrRepo" = Some (parseImageUri uri).1
  ∧ ∃ f, getFunction st "AgentFunction" = Some f
         ∧ lambda.code f = lambda.fromEcr "EcrRepo" (parseImageUri uri).2.
Proof.
  intros E H. unfold HereyaClaudeAgentStack, constructor in H. rewrite E in H.
  destruct uri as [|c r]; [discriminate H|].
  destruct (parseImageUri (String c r)) as [repoName imageTag].
  cbv [mbind M_bind mret M_ret throw addChild addGrant addEventSource
       newPolicyDocument this_stackName this_region super stackName region
       children grants eventSources app] in H.
  library_accepts H. injection H as <-.
  split; [reflexivity|]. eexists. split; reflexivity.
Qed.

(** C4, as amended. The stack definition never rejects an image reference
    that is present and non-empty, whatever its shape: it does not throw
    its own error for it, and if construction fails the error is the
    library's.  The reference is taken apart without any check, and a
    constructed stack imports the repository and uses the tag that result:
    for [registry/repo:tag] these are [repo] and [tag], and for
    [registry/repo] without a tag they are [repo] and [latest]. *)
Theorem image_reference_never_rejected
    (U : Platform) (env : gmap string string) (name rg : string) (uri : string) :
  env !! "imageUri" = Some uri → uri ≠ EmptyString →
  (∀ st, HereyaClaudeAgentStack U env name rg ≠ Thrown imageUriRequired st)
  ∧ (∀ e st, HereyaClaudeAgentStack U env name rg = Thrown e st →
       ∃ message, e = LibraryError message)
  ∧ (∀ st, HereyaClaudeAgentStack U env name rg = Returned tt st →
       getRepository st "EcrRepo" = Some (parseImageUri uri).1
       ∧ ∃ f, getFunction st "AgentFunction" = Some f
              ∧ lambda.code f = lambda.fromEcr "EcrRepo" (parseImageUri uri).2)
  ∧ (∀ registry repo tag,
       occurs "/" registry = false → occurs ":" repo = false → occurs ":" tag = false →
       uri = registry +:+ "/" +:+ repo +:+ ":" +:+ tag →
       parseImageUri uri = (Some repo, tag))
  ∧ (∀ registry repo,
       occurs "/" registry = false → occurs ":" repo = false →
       uri = registry +:+ "/" +:+ repo →
       parseImageUri uri = (Some repo, "latest")).
Proof.
  intros E Hne.
  assert (¬ unset (env !! "imageUri")) as Hset.
  { rewrite E. intros [?|[= ->]]; done. }
  split; [|split; [|split; [|split]]].
  - intros st H. apply thrown_inv in H as [(_ & Hu & _)|(message & [=] & _)]. done.
  - intros e st H. apply thrown_inv in H as [(_ & Hu & _)|(message & -> & _)]; [done|].
    by exists message.
  - intros st H. exact (image_parts_built _ _ _ _ _ _ E H).
  - intros registry repo tag Hr Hrepo Ht ->. by apply parseImageUri_tagged.
  - intros registry repo Hr Hrepo ->. by apply parseImageUri_untagged.
Qed.

Lemma image_reference_never_rejected_witness :
  HereyaClaudeAgentStack testPlatform testEnv "TestStack" "us-east-1"
  ≠ Thrown imageUriRequired (super "TestStack" "us-east-1")
  ∧ getRepository testStack "EcrRepo" = Some (Some "my-agent")
  ∧ ∃ f, getFunction testStack "AgentFunction" = Some f
         ∧ lambda.code f = lambda.fromEcr "EcrRepo" "latest".
Proof.
  destruct (image_reference_never_rejected testPlatform testEnv
              "TestStack" "us-east-1" TEST_IMAGE_URI)
    as (Hno & _ & Hbuilt & _).
  - reflexivity.
  - discriminate.
  - split; [apply Hno|].
    apply (Hbuilt testStack). vm_compute. reflexivity.
Defined.

(** C4, as stated, fails: [my-agent] has neither a registry nor a tag, and
    the stack is constructed all the same. *)
Lemma unparseable_reference_accepted :
  ¬ parseable "my-agent"
  ∧ ∃ st, HereyaClaudeAgentStack testPlatform {[ "imageUri" := "my-agent" ]}
            "TestStack" "us-east-1"
          = Returned tt st.
Proof.
  split.
  - intros (registry & repo & tag & _ & _ & _ & E).
    apply (f_equal (occurs "/")) in E.
    rewrite occurs_app in E. simpl in E. by rewrite orb_true_r in E.
  - eexists. vm_compute. reflexivity.
Qed.

Example untagged_reference_defaults :
  parseImageUri "123456789012.dkr.ecr.us-east-1.amazonaws.com/my-agent" = (Some "my-agent", "latest").
Proof. reflexivity. Qed.

(** ** Defaults and explicit values *)

(** C5, as amended. When [memorySize] is unset or empty the function's
    memory is 1024, when [timeout] is unset or empty its timeout is 900
    seconds, and when [namePrefix] is unset or empty the prefix is [agent].
    A non-empty [namePrefix] is the prefix; a [memorySize] or [timeout]
    given as a decimal numeral of at most [2^53] is the function's memory
    or timeout. *)
Theorem defaults_and_overrides
    (U : Platform) (env : gmap string string) (name rg : string) (st : Stack) :
  HereyaClaudeAgentStack U env name rg = Returned tt st →
  ∃ f bi,
    getFunction st "AgentFunction" = Some f ∧ getBucket st "InputBucket" = Some bi
    ∧ (unset (env !! "memorySize") → lambda.memorySize f = JS.Num 1024)
    ∧ (unset (env !! "timeout") → lambda.timeout f = Duration.seconds (JS.Num 900))
    ∧ (unset (env !! "namePrefix") →
         Input.prefix env = "agent"
         ∧ s3.bucketName bi
           = JS.toLowerCase (lowerUnicode U) ("agent" +:+ "-input-" +:+ name))
    ∧ (∀ v, env !! "namePrefix" = Some v → v ≠ EmptyString →
         Input.prefix env = v
         ∧ s3.bucketName bi = JS.toLowerCase (lowerUnicode U) (v +:+ "-input-" +:+ name))
    ∧ (∀ ds, env !! "memorySize" = Some (numeral ds) → ds ≠ [] → Forall isDigit ds →
         value ds ≤ 9007199254740992 →
         lambda.memorySize f = JS.Num (value ds))
    ∧ (∀ ds, env !! "timeout" = Some (numeral ds) → ds ≠ [] → Forall isDigit ds →
         value ds ≤ 9007199254740992 →
         lambda.timeout f = Duration.seconds (JS.Num (value ds))).
Proof.
  intros H. returned H. do 2 eexists.
  split; [reflexivity|]. split; [reflexivity|].
  cbn [lambda.memorySize lambda.timeout s3.bucketName].
  unfold Input.memorySize, Input.timeout.
  split; [|split; [|split; [|split; [|split]]]].
  - intros Hu. by rewrite (or_unset _ _ Hu).
  - intros Hu. by rewrite (or_unset _ _ Hu).
  - intros Hu.
    assert (Input.prefix env = "agent") as -> by (apply prefix_cases; by left).
    done.
  - intros v Hv Hne.
    assert (Input.prefix env = v) as -> by (apply prefix_cases; by right).
    done.
  - intros ds -> Hne Hds Hsafe.
    rewrite (or_set _ _ (numeral_not_empty ds Hne)). by apply parseInt_numeral.
  - intros ds -> Hne Hds Hsafe.
    rewrite (or_set _ _ (numeral_not_empty ds Hne)). by rewrite parseInt_numeral.
Qed.

Lemma defaults_and_overrides_witness :
  ∃ f bi,
    getFunction customStack "AgentFunction" = Some f
    ∧ getBucket customStack "InputBucket" = Some bi
    ∧ lambda.memorySize f = JS.Num 2048
    ∧ lambda.timeout f = Duration.seconds (JS.Num 600)
    ∧ Input.prefix customEnv = "MyApp"
    ∧ s3.bucketName bi = "myapp-input-teststack".
Proof.
  destruct (defaults_and_overrides testPlatform customEnv "TestStack" "us-east-1" customStack)
    as (f & bi & Hf & Hbi & _ & _ & _ & Hp & Hm & Ht).
  - vm_compute. reflexivity.
  - exists f, bi. split; [exact Hf|]. split; [exact Hbi|]. split; [|split].
    + apply (Hm [2; 0; 4; 8]); [reflexivity|discriminate| |vm_compute; discriminate].
      repeat (apply Forall_cons; split; [unfold isDigit; lia|]). apply Forall_nil_2.
    + apply (Ht [6; 0; 0]); [reflexivity|discriminate| |vm_compute; discriminate].
      repeat (apply Forall_cons; split; [unfold isDigit; lia|]). apply Forall_nil_2.
    + apply (Hp "MyApp"); [reflexivity|discriminate].
Defined.

Example default_memory_and_timeout :
  Input.memorySize ∅ = JS.Num 1024 ∧ Input.timeout ∅ = JS.Num 900.
Proof. split; reflexivity. Qed.

(** C5, as stated, fails: a [namePrefix] set to the empty string is not
    used; the prefix is the default, and so are the names built from it. *)
Lemma empty_prefix_falls_back :
  emptyPrefixEnv !! "namePrefix" = Some EmptyString
  ∧ Input.prefix emptyPrefixEnv ≠ EmptyString
  ∧ Input.prefix emptyPrefixEnv = "agent"
  ∧ (s3.bucketName <$>
       getBucket (stackOf (HereyaClaudeAgentStack testPlatform emptyPrefixEnv
                             "TestStack" "us-east-1"))
                 "InputBucket")
    = Some "agent-input-teststack".
Proof. vm_compute. repeat split. discriminate. Qed.

(** * Further properties of the stack definition *)

(** ** The resource graph *)

(** X1. When objects are not deleted automatically, a constructed stack
    holds thirteen constructs, under the same identifiers for every
    configuration and in the order of the source, and no identifier is
    used twice.  (With automatic deletion the library adds a provider of
    its own to the stack, which [children] does not list.) *)
Theorem construct_identifiers
    (U : Platform) (env : gmap string string) (name rg : string) (st : Stack) :
  HereyaClaudeAgentStack U env name rg = Returned tt st →
  env !! "autoDeleteObjects" ≠ Some "true" →
  (children st).*1 =
    [ "InputBucket"; "OutputBucket"; "InputQueue"; "OutputQueue"; "EcrRepo";
      "AgentFunction"; "inputBucketName"; "inputQueueUrl"; "outputBucketName";
      "outputQueueUrl"; "lambdaFunctionName"; "awsRegion";
      "iamPolicyClaudeAgentClient" ]
  ∧ NoDup (children st).*1.
Proof.
  intros H _. returned H.
  split; [reflexivity|].
  apply (bool_decide_unpack _). vm_compute. exact I.
Qed.

Lemma construct_identifiers_witness :
  length (children testStack).*1 = 13%nat ∧ NoDup (children testStack).*1.
Proof.
  destruct (construct_identifiers testPlatform testEnv "TestStack" "us-east-1" testStack)
    as [Hids Hnd].
  - vm_compute. reflexivity.
  - discriminate.
  - split; [|exact Hnd]. rewrite Hids. reflexivity.
Defined.

(** X3. On the buckets and queues of the stack the function receives
    exactly four grants: read on the input bucket, write on the output
    bucket and send on the output queue, by the three calls of the source,
    and consume on the input queue, by its event source.  It is granted no
    write access to the input bucket and no right to send to the input
    queue. *)
Theorem function_grants
    (U : Platform) (env : gmap string string) (name rg : string) (st : Stack) :
  HereyaClaudeAgentStack U env name rg = Returned tt st →
  grants st =
    [ grantRead "InputBucket" "AgentFunction";
      grantWrite "OutputBucket" "AgentFunction";
      grantSendMessages "OutputQueue" "AgentFunction";
      grantConsumeMessages "InputQueue" "AgentFunction" ]
  ∧ (∀ f, ¬ (grantWrite "InputBucket" f ∈ grants st))
  ∧ (∀ f, ¬ (grantSendMessages "InputQueue" f ∈ grants st)).
Proof.
  intros H. returned H. cbn [grants].
  split; [reflexivity|]. split.
  - intros f Hin. repeat (apply elem_of_cons in Hin as [[=]|Hin]). by apply elem_of_nil in Hin.
  - intros f Hin. repeat (apply elem_of_cons in Hin as [[=]|Hin]). by apply elem_of_nil in Hin.
Qed.

Lemma function_grants_witness : length (grants fullStack) = 4%nat.
Proof.
  destruct (function_grants testPlatform fullEnv "ProdStack" "eu-west-1" fullStack) as [Hg _].
  - vm_compute. reflexivity.
  - rewrite Hg. reflexivity.
Defined.

(** X4. The function has exactly one event source: the input queue, read
    one message at a time. *)
Theorem one_event_source
    (U : Platform) (env : gmap string string) (name rg : string) (st : Stack) :
  HereyaClaudeAgentStack U env name rg = Returned tt st →
  eventSources st = [ {| target := "AgentFunction"; queue := "InputQueue"; batchSize := 1 |} ].
Proof. intros H. returned H. reflexivity. Qed.

Lemma one_event_source_witness :
  eventSources fullStack = [ {| target := "AgentFunction"; queue := "InputQueue"; batchSize := 1 |} ].
Proof.
  apply (one_event_source testPlatform fullEnv "ProdStack" "eu-west-1" fullStack).
  vm_compute. reflexivity.
Defined.

(** X5. A constructed stack publishes exactly seven outputs: the names of
    the two buckets, the URLs of the two queues, the name of the function,
    the region of the stack as it was given, and the consumer policy as
    JSON. *)
Theorem stack_outputs
    (U : Platform) (env : gmap string string) (name rg : string) (st : Stack) :
  HereyaClaudeAgentStack U env name rg = Returned tt st →
  outputs st =
    [ ("inputBucketName", Text [Ref "InputBucket" BucketName]);
      ("inputQueueUrl", Text [Ref "InputQueue" QueueUrl]);
      ("outputBucketName", Text [Ref "OutputBucket" BucketName]);
      ("outputQueueUrl", Text [Ref "OutputQueue" QueueUrl]);
      ("lambdaFunctionName", Text [Ref "AgentFunction" FunctionName]);
      ("awsRegion", Text [Lit rg]);
      ("iamPolicyClaudeAgentClient",
       PolicyJson (consumerPolicy "InputBucket" "OutputBucket" "InputQueue" "OutputQueue")) ].
Proof. intros H. returned H. reflexivity. Qed.

Lemma stack_outputs_witness :
  (outputs fullStack).*1 =
    [ "inputBucketName"; "inputQueueUrl"; "outputBucketName"; "outputQueueUrl";
      "lambdaFunctionName"; "awsRegion"; "iamPolicyClaudeAgentClient" ].
Proof.
  rewrite (stack_outputs testPlatform fullEnv "ProdStack" "eu-west-1" fullStack).
  - reflexivity.
  - vm_compute. reflexivity.
Defined.

(** X6. Every bucket of a constructed stack is versioned, and deletes its
    objects automatically exactly when its removal policy is [DESTROY]. *)
Theorem bucket_invariants
    (U : Platform) (env : gmap string string) (name rg : string) (st : Stack) :
  HereyaClaudeAgentStack U env name rg = Returned tt st →
  ∀ id b, (id, b) ∈ buckets st →
    s3.versioned b = true
    ∧ (s3.autoDeleteObjects b = true ↔ s3.removalPolicy b = RemovalPolicy.DESTROY).
Proof.
  intros H. returned H. intros id b Hin.
  unfold buckets in Hin. cbn [children omap list_omap asBucket fmap option_fmap option_map] in Hin.
  apply elem_of_cons in Hin as [[= -> ->]|Hin];
    [|apply elem_of_cons in Hin as [[= -> ->]|Hin]; [|by apply elem_of_nil in Hin]];
    cbn [s3.versioned s3.autoDeleteObjects s3.removalPolicy];
    (split; [reflexivity|]); by destruct (Input.autoDeleteObjects env).
Qed.

Lemma bucket_invariants_witness :
  Forall (λ ib : string * s3.BucketProps,
            s3.versioned ib.2 = true
            ∧ (s3.autoDeleteObjects ib.2 = true ↔ s3.removalPolicy ib.2 = RemovalPolicy.DESTROY))
         (buckets fullStack).
Proof.
  apply Forall_forall. intros [id b] Hin.
  refine (bucket_invariants testPlatform fullEnv "ProdStack" "eu-west-1" fullStack _ id b Hin).
  vm_compute. reflexivity.
Defined.

(** ** Names, continued *)

Lemma resourceNames_built
    (U : Platform) (env : gmap string string) (S rg : string) (st : Stack) :
  HereyaClaudeAgentStack U env S rg = Returned tt st →
  resourceNames st =
    [ JS.toLowerCase (lowerUnicode U) (Input.prefix env +:+ "-input-" +:+ S);
      JS.toLowerCase (lowerUnicode U) (Input.prefix env +:+ "-output-" +:+ S);
      JS.toLowerCase (lowerUnicode U) (Input.prefix env +:+ "-input-" +:+ S);
      JS.toLowerCase (lowerUnicode U) (Input.prefix env +:+ "-output-" +:+ S);
      JS.toLowerCase (lowerUnicode U) (Input.prefix env +:+ "-" +:+ S) ].
Proof. intros H. returned H. reflexivity. Qed.

(** For a prefix and a stack name of ASCII characters the names are those
    of the ASCII case mapping, on every platform. *)
Lemma resourceNames_ascii
    (U : Platform) (env : gmap string string) (P S rg : string) (st : Stack) :
  HereyaClaudeAgentStack U env S rg = Returned tt st →
  prefixIs env P → JS.isAscii P = true → JS.isAscii S = true →
  resourceNames st =
    [ JS.lowerAscii P +:+ "-input-" +:+ JS.lowerAscii S;
      JS.lowerAscii P +:+ "-output-" +:+ JS.lowerAscii S;
      JS.lowerAscii P +:+ "-input-" +:+ JS.lowerAscii S;
      JS.lowerAscii P +:+ "-output-" +:+ JS.lowerAscii S;
      JS.lowerAscii P +:+ "-" +:+ JS.lowerAscii S ].
Proof.
  intros H HP HaP HaS. rewrite (resourceNames_built _ _ _ _ _ H).
  rewrite (prefix_cases _ _ HP).
  rewrite !toLowerCase_ascii by (rewrite !isAscii_app, HaP, HaS; reflexivity).
  rewrite !lowerAscii_app. reflexivity.
Qed.

Lemma string_app_inv_head (a b c : string) : a +:+ b = a +:+ c → b = c.
Proof. induction a as [|x a IH]; simpl; [done|]. intros [= E]. by apply IH. Qed.

Lemma string_length_app (a b : string) :
  String.length (a +:+ b) = (String.length a + String.length b)%nat.
Proof. induction a as [|x a IH]; simpl; [done|]. by rewrite IH. Qed.

Lemma length_lowerAscii (s : string) :
  String.length (JS.lowerAscii s) = String.length s.
Proof. induction s as [|c s IH]; simpl; [done|]. by rewrite IH. Qed.

Lemma isUpper_lower_char (c : ascii) : isUpper (JS.lower_char c) = false.
Proof. by destruct c as [[] [] [] [] [] [] [] []]. Qed.

Lemma hasUpper_lowerAscii (s : string) : hasUpper (JS.lowerAscii s) = false.
Proof.
  induction s as [|c s IH]; simpl; [done|].
  by rewrite isUpper_lower_char, IH.
Qed.

Lemma prefix_nonempty (env : gmap string string) : Input.prefix env ≠ EmptyString.
Proof. unfold Input.prefix. by destruct (env !! "namePrefix") as [[|c r]|]. Qed.

(** X7. The input and the output resources never share a name: for a
    prefix and a stack name of ASCII characters the two buckets have
    different names, and so have the two queues. *)
Theorem input_output_names_differ
    (U : Platform) (env : gmap string string) (P S rg : string) (st : Stack) :
  HereyaClaudeAgentStack U env S rg = Returned tt st →
  prefixIs env P → JS.isAscii P = true → JS.isAscii S = true →
  ∃ bi bo qi qo,
    getBucket st "InputBucket" = Some bi ∧ getBucket st "OutputBucket" = Some bo
    ∧ getQueue st "InputQueue" = Some qi ∧ getQueue st "OutputQueue" = Some qo
    ∧ s3.bucketName bi ≠ s3.bucketName bo
    ∧ sqs.queueName qi ≠ sqs.queueName qo.
Proof.
  intros H HP HaP HaS. returned H.
  do 4 eexists. do 4 (split; [reflexivity|]).
  cbn [s3.bucketName sqs.queueName]. rewrite (prefix_cases _ _ HP).
  rewrite !toLowerCase_ascii by (rewrite !isAscii_app, HaP, HaS; reflexivity).
  rewrite !lowerAscii_app.
  split; intros E; apply string_app_inv_head in E; discriminate E.
Qed.

Lemma input_output_names_differ_witness :
  ∃ bi bo qi qo,
    getBucket fullStack "InputBucket" = Some bi ∧ getBucket fullStack "OutputBucket" = Some bo
    ∧ getQueue fullStack "InputQueue" = Some qi ∧ getQueue fullStack "OutputQueue" = Some qo
    ∧ s3.bucketName bi ≠ s3.bucketName bo
    ∧ sqs.queueName qi ≠ sqs.queueName qo.
Proof.
  apply (input_output_names_differ testPlatform fullEnv "MyApp" "ProdStack" "eu-west-1"
           fullStack).
  - vm_compute. reflexivity.
  - right. split; [reflexivity|discriminate].
  - reflexivity.
  - reflexivity.
Defined.

(** X8. For a prefix and a stack name of ASCII characters, no bucket, queue
    or function name of a constructed stack contains an upper-case letter,
    and lowercasing a name again leaves it as it is. *)
Theorem names_are_lowercase
    (U : Platform) (env : gmap string string) (P S rg : string) (st : Stack) :
  HereyaClaudeAgentStack U env S rg = Returned tt st →
  prefixIs env P → JS.isAscii P = true → JS.isAscii S = true →
  ∀ n, n ∈ resourceNames st →
    hasUpper n = false ∧ JS.toLowerCase (lowerUnicode U) n = n.
Proof.
  intros H HP HaP HaS n Hn.
  rewrite (resourceNames_ascii _ _ _ _ _ _ H HP HaP HaS) in Hn.
  assert (∀ role, JS.isAscii role = true → JS.lowerAscii role = role →
            hasUpper (JS.lowerAscii P +:+ role +:+ JS.lowerAscii S) = false
            ∧ JS.toLowerCase (lowerUnicode U) (JS.lowerAscii P +:+ role +:+ JS.lowerAscii S)
              = JS.lowerAscii P +:+ role +:+ JS.lowerAscii S) as Hrole.
  { intros role Har Hlr.
    assert (JS.lowerAscii P +:+ role +:+ JS.lowerAscii S
            = JS.lowerAscii (P +:+ role +:+ S)) as ->
      by (by rewrite !lowerAscii_app, Hlr).
    split; [apply hasUpper_lowerAscii|].
    rewrite toLowerCase_ascii; [apply lowerAscii_idemp|].
    by rewrite isAscii_lowerAscii, !isAscii_app, HaP, HaS, Har. }
  repeat (apply elem_of_cons in Hn as [->|Hn]; [by apply Hrole|]).
  by apply elem_of_nil in Hn.
Qed.

Lemma names_are_lowercase_witness :
  Forall (λ n, hasUpper n = false ∧ JS.toLowerCase (lowerUnicode testPlatform) n = n)
         (resourceNames fullStack).
Proof.
  apply Forall_forall. intros n Hn.
  refine (names_are_lowercase testPlatform fullEnv "MyApp" "ProdStack" "eu-west-1"
            fullStack _ _ _ _ n Hn).
  - vm_compute. reflexivity.
  - right. split; [reflexivity|discriminate].
  - reflexivity.
  - reflexivity.
Defined.

(** X9. Names do not tell letter case apart, nor platforms: two
    configurations whose prefixes, of ASCII characters, are equal up to
    case and whose stack names, of ASCII characters, are equal up to case
    give the same names to all their resources, whatever their regions and
    other inputs are. *)
Theorem names_ignore_case
    (U1 U2 : Platform) (env1 env2 : gmap string string)
    (P1 P2 S1 S2 rg1 rg2 : string) (st1 st2 : Stack) :
  HereyaClaudeAgentStack U1 env1 S1 rg1 = Returned tt st1 →
  HereyaClaudeAgentStack U2 env2 S2 rg2 = Returned tt st2 →
  prefixIs env1 P1 → prefixIs env2 P2 →
  JS.isAscii P1 = true → JS.isAscii P2 = true →
  JS.isAscii S1 = true → JS.isAscii S2 = true →
  JS.lowerAscii P1 = JS.lowerAscii P2 →
  JS.lowerAscii S1 = JS.lowerAscii S2 →
  resourceNames st1 = resourceNames st2.
Proof.
  intros H1 H2 HP1 HP2 Ha1 Ha2 Hs1 Hs2 HP HS.
  rewrite (resourceNames_ascii _ _ _ _ _ _ H1 HP1 Ha1 Hs1).
  rewrite (resourceNames_ascii _ _ _ _ _ _ H2 HP2 Ha2 Hs2).
  by rewrite HP, HS.
Qed.

Lemma names_ignore_case_witness :
  resourceNames fullStack
  = resourceNames (stackOf (HereyaClaudeAgentStack testPlatform
                              (<[ "namePrefix" := "MYAPP" ]> fullEnv) "prodSTACK" "us-east-1")).
Proof.
  apply (names_ignore_case testPlatform testPlatform
           fullEnv (<[ "namePrefix" := "MYAPP" ]> fullEnv)
           "MyApp" "MYAPP" "ProdStack" "prodSTACK" "eu-west-1" "us-east-1").
  - vm_compute. reflexivity.
  - vm_compute. reflexivity.
  - right. split; [reflexivity|discriminate].
  - right. split; [reflexivity|discriminate].
  - reflexivity.
  - reflexivity.
  - reflexivity.
  - reflexivity.
  - reflexivity.
  - reflexivity.
Defined.

(** X10. The prefix is never empty, and for a prefix and a stack name of
    ASCII characters the length of every name is the length of the prefix
    plus the length of the stack name plus the length of the role: 7 for
    [-input-], 8 for [-output-], 1 for the function. *)
Theorem name_lengths
    (U : Platform) (env : gmap string string) (P S rg : string) (st : Stack) :
  HereyaClaudeAgentStack U env S rg = Returned tt st →
  prefixIs env P → JS.isAscii P = true → JS.isAscii S = true →
  let p := String.length P in
  let s := String.length S in
  (1 ≤ p)%nat
  ∧ String.length <$> resourceNames st
    = [ (p + 7 + s)%nat; (p + 8 + s)%nat; (p + 7 + s)%nat; (p + 8 + s)%nat; (p + 1 + s)%nat ].
Proof.
  intros H HP HaP HaS p s. split.
  - subst p. pose proof (prefix_nonempty env) as Hne.
    rewrite (prefix_cases _ _ HP) in Hne.
    destruct P; [done|simpl; lia].
  - rewrite (resourceNames_ascii _ _ _ _ _ _ H HP HaP HaS). cbn [fmap list_fmap].
    rewrite !string_length_app, !length_lowerAscii. cbn [String.length].
    subst p s. rewrite !Nat.add_assoc. reflexivity.
Qed.

Lemma name_lengths_witness :
  String.length <$> resourceNames fullStack = [ 21; 22; 21; 22; 15 ]%nat.
Proof.
  destruct (name_lengths testPlatform fullEnv "MyApp" "ProdStack" "eu-west-1" fullStack)
    as [_ Hl].
  - vm_compute. reflexivity.
  - right. split; [reflexivity|discriminate].
  - reflexivity.
  - reflexivity.
  - rewrite Hl. reflexivity.
Defined.

(** ** The image reference, in closed form *)

Lemma split_unfold (sep : ascii) (s : string) :
  JS.split sep s =
    beforeFirst sep s :: (if occurs sep s then JS.split sep (afterFirst sep s) else []).
Proof.
  induction s as [|c r IH]; simpl; [done|].
  case_bool_decide; simpl; [done|].
  rewrite IH. reflexivity.
Qed.

Lemma afterFirst_absent (c : ascii) (s : string) :
  occurs c s = false → afterFirst c s = EmptyString.
Proof.
  induction s as [|x r IH]; simpl; [done|].
  case_bool_decide; simpl; [done|]. exact IH.
Qed.

Lemma beforeFirst_absent (c : ascii) (s : string) :
  occurs c s = false → beforeFirst c s = s.
Proof.
  induction s as [|x r IH]; simpl; [done|].
  case_bool_decide; simpl; [done|]. intros H'. by rewrite IH.
Qed.

Lemma occurs_beforeFirst (c : ascii) (s : string) : occurs c (beforeFirst c s) = false.
Proof.
  induction s as [|x r IH]; simpl; [done|].
  case_bool_decide as Hx; simpl; [done|].
  by rewrite bool_decide_eq_false_2, IH.
Qed.

Lemma before_after_first (c : ascii) (s : string) :
  occurs c s = true → s = beforeFirst c s +:+ String c (afterFirst c s).
Proof.
  induction s as [|x r IH]; simpl; [done|].
  case_bool_decide as Hx; simpl.
  - intros _. by subst x.
  - intros H'. change (String x r = String x (beforeFirst c r +:+ String c (afterFirst c r))).
    f_equal. by apply IH.
Qed.

Lemma repoAndTag_closed (uri : string) :
  JS.join "/" (JS.slice1 (JS.split "/" uri)) = afterFirst "/" uri.
Proof.
  rewrite split_unfold. unfold JS.slice1. cbn [drop].
  destruct (occurs "/" uri) eqn:E.
  - apply (join_split "/").
  - by rewrite afterFirst_absent.
Qed.

Lemma parseImageUri_closed (uri : string) :
  parseImageUri uri =
    ( Some (beforeFirst ":" (afterFirst "/" uri)),
      if occurs ":" (afterFirst "/" uri)
      then beforeFirst ":" (afterFirst ":" (afterFirst "/" uri))
      else "latest" ).
Proof.
  unfold parseImageUri. rewrite repoAndTag_closed.
  rewrite split_unfold. unfold JS.destructure2. cbn [lookup list_lookup].
  destruct (occurs ":" (afterFirst "/" uri)); [|reflexivity].
  rewrite split_unfold. reflexivity.
Qed.

(** X11. Taking an image reference apart has a closed form, for every
    reference.  With [rest] the text after the first [/] (nothing when
    there is no [/]): the repository name is [rest] up to its first [:];
    the tag is what lies between the first and the second [:] of [rest],
    and [latest] when [rest] has no [:].  In particular a reference without
    [/] gives the empty repository name and the tag [latest], whatever it
    contains. *)
Theorem parseImageUri_closed_form (uri : string) :
  let rest := afterFirst "/" uri in
  parseImageUri uri =
    ( Some (beforeFirst ":" rest),
      if occurs ":" rest then beforeFirst ":" (afterFirst ":" rest) else "latest" )
  ∧ (occurs "/" uri = false → parseImageUri uri = (Some EmptyString, "latest")).
Proof.
  intros rest. subst rest. split; [apply parseImageUri_closed|].
  intros Hno. by rewrite parseImageUri_closed, (afterFirst_absent _ _ Hno).
Qed.

Lemma parseImageUri_closed_form_witness :
  parseImageUri "my-agent:v1" = (Some EmptyString, "latest").
Proof.
  apply (proj2 (parseImageUri_closed_form "my-agent:v1")). reflexivity.
Defined.

(** X12. Neither the repository name nor the tag ever contains a [:], and
    the repository name is always defined; text after a second [:] is
    dropped. *)
Theorem parsed_components_have_no_colon (uri : string) :
  ∃ repoName,
    (parseImageUri uri).1 = Some repoName
    ∧ occurs ":" repoName = false
    ∧ occurs ":" (parseImageUri uri).2 = false
    ∧ ∀ registry repo tag extra,
        occurs "/" registry = false → occurs ":" repo = false → occurs ":" tag = false →
        uri = registry +:+ "/" +:+ repo +:+ ":" +:+ tag +:+ ":" +:+ extra →
        parseImageUri uri = (Some repo, tag).
Proof.
  exists (beforeFirst ":" (afterFirst "/" uri)).
  split; [by rewrite parseImageUri_closed|]. split; [apply occurs_beforeFirst|]. split.
  - rewrite parseImageUri_closed. cbn [snd].
    destruct (occurs ":" (afterFirst "/" uri)); [apply occurs_beforeFirst|reflexivity].
  - intros registry repo tag extra Hr Hp Ht ->.
    unfold parseImageUri. rewrite (repoAndTag_after_first_slash _ _ Hr).
    change (":" +:+ tag +:+ ":" +:+ extra) with (String ":" (tag +:+ String ":" extra)).
    rewrite (split_first _ _ _ Hp), (split_first _ _ _ Ht). reflexivity.
Qed.

Lemma parsed_components_have_no_colon_witness :
  parseImageUri "registry.example.com:5000/team/agent:v2:extra" = (Some "team/agent", "v2").
Proof.
  destruct (parsed_components_have_no_colon "registry.example.com:5000/team/agent:v2:extra")
    as (r & _ & _ & _ & Hx).
  apply (Hx "registry.example.com:5000" "team/agent" "v2" "extra"); reflexivity.
Defined.

Lemma split_length (sep : ascii) (s : string) :
  length (JS.split sep s) = S (count sep s).
Proof.
  induction s as [|c r IH]; simpl; [done|].
  case_bool_decide; simpl; [by rewrite IH|].
  pose proof (split_nonempty sep r) as Hne.
  destruct (JS.split sep r); [done|]. simpl in *. done.
Qed.

Lemma split_pieces (sep : ascii) (s : string) :
  Forall (λ piece, occurs sep piece = false) (JS.split sep s).
Proof.
  induction s as [|c r IH]; simpl; [by apply Forall_cons|].
  case_bool_decide as Hc; [by apply Forall_cons|].
  destruct (JS.split sep r) as [|p ps]; simpl.
  - apply Forall_cons. split; [|done]. simpl. by rewrite bool_decide_eq_false_2.
  - apply Forall_cons in IH as [Hp Hps]. apply Forall_cons. split; [|done].
    simpl. by rewrite bool_decide_eq_false_2.
Qed.

(** X13. Splitting a text at a character gives one piece more than the
    character occurs, none of the pieces contains the character, and
    joining the pieces with the character gives the text back. *)
Theorem split_join_round_trip (sep : ascii) (s : string) :
  length (JS.split sep s) = S (count sep s)
  ∧ Forall (λ piece, occurs sep piece = false) (JS.split sep s)
  ∧ JS.join (String sep EmptyString) (JS.split sep s) = s.
Proof.
  split; [apply split_length|]. split; [apply split_pieces|apply join_split].
Qed.

(** ** Numeric inputs, at their edges *)

Lemma parseInt_minus (ds : list Z) (rest : string) :
  ds ≠ [] → Forall isDigit ds → stopsDigits rest → value ds ≤ 9007199254740992 →
  JS.parseInt (String "-" (numeral ds +:+ rest)) = JS.Num (- value ds).
Proof.
  intros Hne Hds Hrest Hsafe. pose proof (value_nonneg _ Hds) as Hpos.
  unfold JS.parseInt. rewrite trimStart_keeps by (vm_compute; reflexivity).
  cbv beta iota zeta.
  rewrite (digits_numeral_start _ _ Hne Hds Hrest).
  rewrite ofInteger_exact by lia. f_equal; lia.
Qed.

Lemma parseInt_not_a_number (c : ascii) (r : string) :
  JS.code c < 128 → JS.is_white_space c = false →
  c ≠ "-"%char → c ≠ "+"%char → JS.digit c = None →
  JS.parseInt (String c r) = JS.NaN.
Proof.
  intros Hc Hw Hm Hp Hd. unfold JS.parseInt. rewrite (trimStart_keeps _ _ Hc Hw).
  assert (JS.digits None (String c r) = None) as Hz by (cbn [JS.digits]; by rewrite Hd).
  revert Hm Hp Hz. clear.
  destruct c as [[] [] [] [] [] [] [] []]; intros Hm Hp Hz; try done; by rewrite Hz.
Qed.

(** X14. Text after the digits of a numeric input is ignored: a
    [memorySize] or [timeout] that starts with a decimal numeral and goes
    on with anything that is not a digit counts as that numeral, as long
    as the numbers involved are doubles. *)
Theorem numeric_inputs_ignore_trailing_text
    (U : Platform) (env : gmap string string) (name rg : string) (st : Stack) :
  HereyaClaudeAgentStack U env name rg = Returned tt st →
  ∃ q f,
    getQueue st "InputQueue" = Some q ∧ getFunction st "AgentFunction" = Some f
    ∧ (∀ ds rest, env !! "memorySize" = Some (numeral ds +:+ rest) →
         ds ≠ [] → Forall isDigit ds → stopsDigits rest →
         value ds ≤ 9007199254740992 →
         lambda.memorySize f = JS.Num (value ds))
    ∧ (∀ ds rest, env !! "timeout" = Some (numeral ds +:+ rest) →
         ds ≠ [] → Forall isDigit ds → stopsDigits rest →
         6 * value ds ≤ 9007199254740992 →
         lambda.timeout f = Duration.seconds (JS.Num (value ds))
         ∧ sqs.visibilityTimeout q = Duration.seconds (JS.Num (value ds * 6))).
Proof.
  intros H. destruct (numeric_inputs_built _ _ _ _ _ H) as (q & f & Hq & Hf & Hm & Ht & Hv).
  exists q, f. split; [done|]. split; [done|]. split.
  - intros ds rest E Hne Hds Hrest Hsafe. rewrite Hm. unfold Input.memorySize.
    rewrite E, (or_set _ _ (numeral_nonempty _ _ Hne)).
    by apply parseInt_numeral_prefix.
  - intros ds rest E Hne Hds Hrest Hsafe. pose proof (value_nonneg _ Hds) as Hpos.
    rewrite Ht, Hv. unfold Input.timeout.
    rewrite E, (or_set _ _ (numeral_nonempty _ _ Hne)).
    rewrite (parseInt_numeral_prefix _ _ Hne Hds Hrest) by lia.
    split; [done|]. cbn [JS.mul]. by rewrite ofInteger_exact by lia.
Qed.

Lemma numeric_inputs_ignore_trailing_text_witness :
  ∃ f, getFunction fullStack "AgentFunction" = Some f ∧ lambda.memorySize f = JS.Num 2048.
Proof.
  destruct (numeric_inputs_ignore_trailing_text testPlatform fullEnv
              "ProdStack" "eu-west-1" fullStack)
    as (q & f & _ & Hf & Hm & _).
  - vm_compute. reflexivity.
  - exists f. split; [exact Hf|].
    apply (Hm [2; 0; 4; 8] "MB").
    + reflexivity.
    + discriminate.
    + repeat (apply Forall_cons; split; [unfold isDigit; lia|]). apply Forall_nil_2.
    + reflexivity.
    + vm_compute. discriminate.
Defined.

(** X15. A minus sign is accepted in [memorySize] and the stack definition
    does not reject the result: a [memorySize] of [-n] gives the function
    a memory of [-n]. *)
Theorem negative_inputs_pass_through
    (U : Platform) (env : gmap string string) (name rg : string) (st : Stack) :
  HereyaClaudeAgentStack U env name rg = Returned tt st →
  ∃ f,
    getFunction st "AgentFunction" = Some f
    ∧ ∀ ds rest, env !! "memorySize" = Some (String "-" (numeral ds +:+ rest)) →
        ds ≠ [] → Forall isDigit ds → stopsDigits rest →
        value ds ≤ 9007199254740992 →
        lambda.memorySize f = JS.Num (- value ds).
Proof.
  intros H. destruct (numeric_inputs_built _ _ _ _ _ H) as (q & f & Hq & Hf & Hm & Ht & Hv).
  exists f. split; [done|].
  intros ds rest E Hne Hds Hrest Hsafe. rewrite Hm. unfold Input.memorySize.
  rewrite E. cbn [JS.or]. by apply parseInt_minus.
Qed.

Lemma negative_inputs_pass_through_witness :
  ∃ f,
    getFunction (stackOf (HereyaClaudeAgentStack testPlatform negativeMemoryEnv
                            "TestStack" "us-east-1")) "AgentFunction" = Some f
    ∧ lambda.memorySize f = JS.Num (-5).
Proof.
  destruct (negative_inputs_pass_through testPlatform negativeMemoryEnv
              "TestStack" "us-east-1"
              (stackOf (HereyaClaudeAgentStack testPlatform negativeMemoryEnv
                          "TestStack" "us-east-1")))
    as (f & Hf & Hm).
  - vm_compute. reflexivity.
  - exists f. split; [exact Hf|].
    apply (Hm [5] EmptyString).
    + reflexivity.
    + discriminate.
    + apply Forall_cons. split; [unfold isDigit; lia|apply Forall_nil_2].
    + exact I.
    + vm_compute. discriminate.
Defined.

(** X16. A [memorySize] that is not a number is not rejected by the stack
    definition either: when it starts with a character below 128 that is
    neither white space, a sign nor a digit, the function's memory is
    [NaN]. *)
Theorem non_numeric_inputs_give_NaN
    (U : Platform) (env : gmap string string) (name rg : string) (st : Stack) :
  HereyaClaudeAgentStack U env name rg = Returned tt st →
  ∃ f,
    getFunction st "AgentFunction" = Some f
    ∧ ∀ c r, env !! "memorySize" = Some (String c r) →
        JS.code c < 128 → JS.is_white_space c = false →
        c ≠ "-"%char → c ≠ "+"%char → JS.digit c = None →
        lambda.memorySize f = JS.NaN.
Proof.
  intros H. destruct (numeric_inputs_built _ _ _ _ _ H) as (q & f & Hq & Hf & Hm & Ht & Hv).
  exists f. split; [done|].
  intros c r E Hc Hw Hmi Hpl Hd. rewrite Hm. unfold Input.memorySize.
  rewrite E. cbn [JS.or]. by apply parseInt_not_a_number.
Qed.

Lemma non_numeric_inputs_give_NaN_witness :
  ∃ f,
    getFunction (stackOf (HereyaClaudeAgentStack testPlatform wordMemoryEnv
                            "TestStack" "us-east-1")) "AgentFunction" = Some f
    ∧ lambda.memorySize f = JS.NaN.
Proof.
  destruct (non_numeric_inputs_give_NaN testPlatform wordMemoryEnv
              "TestStack" "us-east-1"
              (stackOf (HereyaClaudeAgentStack testPlatform wordMemoryEnv
                          "TestStack" "us-east-1")))
    as (f & Hf & Hm).
  - vm_compute. reflexivity.
  - exists f. split; [exact Hf|].
    apply (Hm "b"%char "ig");
      [reflexivity|reflexivity|reflexivity|discriminate|discriminate|reflexivity].
Defined.

(** ** What the stack depends on *)

(** X17. The stack depends on five environment variables and on nothing
    else in the environment: two environments that agree on [namePrefix],
    [imageUri], [memorySize], [timeout] and [autoDeleteObjects] give the
    same outcome, be it a stack or the error. *)
Theorem only_input_variables_matter
    (U : Platform) (env env' : gmap string string) (name rg : string) :
  (∀ k, k ∈ inputVariables → env !! k = env' !! k) →
  HereyaClaudeAgentStack U env name rg = HereyaClaudeAgentStack U env' name rg.
Proof.
  intros Hagree.
  assert (env !! "namePrefix" = env' !! "namePrefix") as H1
    by (apply Hagree; unfold inputVariables; set_solver).
  assert (env !! "imageUri" = env' !! "imageUri") as H2
    by (apply Hagree; unfold inputVariables; set_solver).
  assert (env !! "memorySize" = env' !! "memorySize") as H3
    by (apply Hagree; unfold inputVariables; set_solver).
  assert (env !! "timeout" = env' !! "timeout") as H4
    by (apply Hagree; unfold inputVariables; set_solver).
  assert (env !! "autoDeleteObjects" = env' !! "autoDeleteObjects") as H5
    by (apply Hagree; unfold inputVariables; set_solver).
  unfold HereyaClaudeAgentStack, constructor,
    Input.prefix, Input.memorySize, Input.timeout, Input.autoDeleteObjects.
  rewrite H1, H2, H3, H4, H5. reflexivity.
Qed.

Lemma only_input_variables_matter_witness :
  HereyaClaudeAgentStack testPlatform fullEnv "ProdStack" "eu-west-1"
  = HereyaClaudeAgentStack testPlatform (delete "anthropicApiKey" fullEnv)
      "ProdStack" "eu-west-1".
Proof.
  apply (only_input_variables_matter testPlatform fullEnv (delete "anthropicApiKey" fullEnv)).
  intros k Hk. unfold inputVariables in Hk.
  repeat (apply elem_of_cons in Hk as [->|Hk]; [vm_compute; reflexivity|]).
  by apply elem_of_nil in Hk.
Defined.

Lemma inputs_after_new_image (env : gmap string string) (uri : string) :
  Input.prefix (<[ "imageUri" := uri ]> env) = Input.prefix env
  ∧ Input.memorySize (<[ "imageUri" := uri ]> env) = Input.memorySize env
  ∧ Input.timeout (<[ "imageUri" := uri ]> env) = Input.timeout env
  ∧ Input.autoDeleteObjects (<[ "imageUri" := uri ]> env) = Input.autoDeleteObjects env.
Proof.
  unfold Input.prefix, Input.memorySize, Input.timeout, Input.autoDeleteObjects.
  by rewrite !lookup_insert_ne.
Qed.

(** X18. Changing the image reference changes the imported repository and
    the image of the function, and nothing else: buckets, queues, grants,
    event sources and outputs stay the same, and so do the function's name,
    memory, timeout and environment. *)
Theorem new_image_touches_only_the_function
    (U : Platform) (env : gmap string string) (name rg uri : string) (st st' : Stack) :
  HereyaClaudeAgentStack U env name rg = Returned tt st →
  HereyaClaudeAgentStack U (<[ "imageUri" := uri ]> env) name rg = Returned tt st' →
  buckets st' = buckets st ∧ queues st' = queues st
  ∧ grants st' = grants st ∧ eventSources st' = eventSources st
  ∧ outputs st' = outputs st
  ∧ ∃ f f',
      getFunction st "AgentFunction" = Some f ∧ getFunction st' "AgentFunction" = Some f'
      ∧ lambda.functionName f' = lambda.functionName f
      ∧ lambda.memorySize f' = lambda.memorySize f
      ∧ lambda.timeout f' = lambda.timeout f
      ∧ lambda.environment f' = lambda.environment f.
Proof.
  intros H H'.
  destruct (inputs_after_new_image env uri) as (Hp & Hm & Ht & Ha).
  unfold HereyaClaudeAgentStack, constructor in H'.
  rewrite lookup_insert_eq, Hp, Hm, Ht, Ha in H'.
  destruct uri as [|c' r']; [discriminate H'|].
  destruct (parseImageUri (String c' r')) as [repoName' imageTag'].
  cbv [mbind M_bind mret M_ret throw addChild addGrant addEventSource
       newPolicyDocument this_stackName this_region super stackName region
       children grants eventSources app] in H'.
  library_accepts H'. injection H' as <-.
  returned H.
  do 5 (split; [reflexivity|]).
  do 2 eexists. split; [reflexivity|]. split; [reflexivity|]. done.
Qed.

Lemma new_image_touches_only_the_function_witness :
  buckets (stackOf (HereyaClaudeAgentStack testPlatform
                      (<[ "imageUri" := "registry/agent:v3" ]> fullEnv)
                      "ProdStack" "eu-west-1"))
  = buckets fullStack
  ∧ queues (stackOf (HereyaClaudeAgentStack testPlatform
                       (<[ "imageUri" := "registry/agent:v3" ]> fullEnv)
                       "ProdStack" "eu-west-1"))
    = queues fullStack.
Proof.
  destruct (new_image_touches_only_the_function testPlatform fullEnv "ProdStack" "eu-west-1"
              "registry/agent:v3" fullStack
              (stackOf (HereyaClaudeAgentStack testPlatform
                          (<[ "imageUri" := "registry/agent:v3" ]> fullEnv)
                          "ProdStack" "eu-west-1")))
    as (Hb & Hq & _).
  - vm_compute. reflexivity.
  - vm_compute. reflexivity.
  - split; [exact Hb|exact Hq].
Defined.
